(** * The voice endpoint [api/voice.js]: a shallow embedding and its properties

    [api/voice.js] exports one asynchronous request handler.  It rejects
    every method but POST, buffers the request body, and then either
    - parses the body as JSON and sends [{text, language}] to the voice-cloning
      (RVC) server or a text-to-speech request to the Gemini endpoint, or
    - forwards the raw body to the voice-cloning server,
    relaying the upstream answer (audio bytes or an error) to the caller.

    The development has these parts:
    - [Module JS]: the part of the JavaScript run time the handler relies on
      (strings of UTF-16 code units, [Buffer.prototype.toString('utf8')],
      [JSON.parse], truthiness, [Error.prototype.toString]);
    - [Module Http]: requests, responses, the [fetch] interface and the
      state-and-exception monad the handler runs in;
    - [Module Voice]: the constants and the two functions of [api/voice.js];
    - [Module Sample]: concrete engines, configurations, networks and
      requests;
    - the properties of the handler, first on every input, then on the
      samples. *)

From Stdlib Require Import List NArith ZArith Bool Lia.
From Stdlib Require Import Strings.Byte.
Import ListNotations.

(* ================================================================== *)
(** * The JavaScript run time *)
(* ================================================================== *)

Module JS.

(** ** Strings

    A JavaScript string is a finite sequence of 16-bit code units. *)

Definition jsstring := list N.

Inductive units := unil | ucons (u : N) (s : units).

Fixpoint units_of_bytes (l : list Byte.byte) : units :=
  match l with
  | [] => unil
  | b :: r => ucons (Byte.to_N b) (units_of_bytes r)
  end.

Fixpoint bytes_of_units (s : units) : option (list Byte.byte) :=
  match s with
  | unil => Some []
  | ucons u r =>
      match Byte.of_N u, bytes_of_units r with
      | Some b, Some l => Some (b :: l)
      | _, _ => None
      end
  end.

Declare Scope js_scope.
Delimit Scope js_scope with js.
Bind Scope js_scope with jsstring.

(** String literals of the source (all of them ASCII) denote their code
    units: ["POST"%js] is [[80; 79; 83; 84]]. *)
#[warnings="-via-type-remapping,-via-type-mismatch"]
String Notation jsstring units_of_bytes bytes_of_units
  (via units mapping [[nil] => unil, [cons] => ucons]) : js_scope.
Open Scope js_scope.

(** The code unit of an ASCII character. *)
Definition ch (b : Byte.byte) : N := Byte.to_N b.

Fixpoint eqb (s t : jsstring) : bool :=
  match s, t with
  | [], [] => true
  | a :: s', b :: t' => N.eqb a b && eqb s' t'
  | _, _ => false
  end.

(** [s.startsWith(t)] *)
Fixpoint startsWith (s t : jsstring) : bool :=
  match t, s with
  | [], _ => true
  | b :: t', a :: s' => N.eqb a b && startsWith s' t'
  | _ :: _, [] => false
  end.

(** [s.includes(t)]: [t] occurs in [s] at some position. *)
Fixpoint includes (s t : jsstring) : bool :=
  startsWith s t ||
  match s with
  | [] => false
  | _ :: s' => includes s' t
  end.

(** [s.toLowerCase()].  The handler lowers an HTTP header value only; Node
    delivers header values decoded as Latin-1, and on that range the Unicode
    lower-case mapping moves A-Z and the capital letters U+00C0-U+00DE
    (U+00D7, the multiplication sign, apart) 32 places up and fixes every
    other code unit. *)
Definition lower (u : N) : N :=
  if ((65 <=? u) && (u <=? 90))%N then (u + 32)%N
  else if ((192 <=? u) && (u <=? 222) && negb (u =? 215))%N then (u + 32)%N
  else u.

Definition toLowerCase (s : jsstring) : jsstring := map lower s.

(** [s.substring(from, to)] for non-negative integer arguments: both are
    clamped to the length, swapped when out of order, and the code units
    between them are returned. *)
Definition substring (from to : nat) (s : jsstring) : jsstring :=
  let len := length s in
  let a := Nat.min from len in
  let b := Nat.min to len in
  firstn (Nat.max a b - Nat.min a b) (skipn (Nat.min a b) s).

(** [s.replace(/\/$/, '')]: the pattern matches one slash at the very end
    of the string (no [m] flag), so one trailing slash is removed. *)
Fixpoint replace_trailing_slash (s : jsstring) : jsstring :=
  match s with
  | [] => []
  | [c] => if N.eqb c (ch "/") then [] else [c]
  | c :: s' => c :: replace_trailing_slash s'
  end.

(** A string is truthy when it is not empty. *)
Definition nonempty (s : jsstring) : bool :=
  match s with [] => false | _ :: _ => true end.

(** [a || b] on strings. *)
Definition or_string (a b : jsstring) : jsstring :=
  if nonempty a then a else b.

(** [a || b] where [a] is a string or [undefined]. *)
Definition or_default (a : option jsstring) (b : jsstring) : jsstring :=
  match a with
  | Some s => or_string s b
  | None => b
  end.

(** ** Buffers

    [buf.toString('utf8')] decodes the bytes as UTF-8 and puts U+FFFD in
    place of every ill-formed sequence, after the WHATWG decoder that V8
    follows; a byte order mark is kept.  The decoder is a machine with one
    pending multi-byte sequence. *)

Record pending := {
  p_code : N;       (* the bits read so far *)
  p_left : nat;     (* continuation bytes still expected *)
  p_lower : N;      (* bounds of the next continuation byte *)
  p_upper : N }.

Definition replacement : N := 0xFFFD.

(** A byte read while no sequence is pending: the code points it completes
    and the sequence it opens. *)
Definition utf8_first (b : N) : list N * option pending :=
  if (b <=? 0x7F)%N then ([b], None)
  else if ((0xC2 <=? b) && (b <=? 0xDF))%N then
    ([], Some {| p_code := N.land b 0x1F; p_left := 1;
                 p_lower := 0x80; p_upper := 0xBF |})
  else if ((0xE0 <=? b) && (b <=? 0xEF))%N then
    ([], Some {| p_code := N.land b 0xF; p_left := 2;
                 p_lower := if (b =? 0xE0)%N then 0xA0 else 0x80;
                 p_upper := if (b =? 0xED)%N then 0x9F else 0xBF |})
  else if ((0xF0 <=? b) && (b <=? 0xF4))%N then
    ([], Some {| p_code := N.land b 0x7; p_left := 3;
                 p_lower := if (b =? 0xF0)%N then 0x90 else 0x80;
                 p_upper := if (b =? 0xF4)%N then 0x8F else 0xBF |})
  else ([replacement], None).

(** One byte: an unexpected byte closes the pending sequence with U+FFFD and
    is then read again as a first byte. *)
Definition utf8_step (st : option pending) (b : N) : list N * option pending :=
  match st with
  | None => utf8_first b
  | Some p =>
      if ((p_lower p <=? b) && (b <=? p_upper p))%N then
        let code := N.lor (N.shiftl (p_code p) 6) (N.land b 0x3F) in
        match p_left p with
        | S (S k) =>
            ([], Some {| p_code := code; p_left := S k;
                         p_lower := 0x80; p_upper := 0xBF |})
        | _ => ([code], None)
        end
      else
        let (out, st') := utf8_first b in (replacement :: out, st')
  end.

Fixpoint utf8_decode (st : option pending) (l : list Byte.byte) : list N :=
  match l with
  | [] => match st with None => [] | Some _ => [replacement] end
  | b :: r =>
      let (out, st') := utf8_step st (Byte.to_N b) in
      out ++ utf8_decode st' r
  end.

(** The code units of a code point: itself, or a surrogate pair. *)
Definition utf16_units (cp : N) : jsstring :=
  if (cp <? 0x10000)%N then [cp]
  else
    let v := (cp - 0x10000)%N in
    [(0xD800 + N.shiftr v 10)%N; (0xDC00 + N.land v 0x3FF)%N].

Definition Buffer_toString_utf8 (buf : list Byte.byte) : jsstring :=
  flat_map utf16_units (utf8_decode None buf).

(** [Buffer.concat(chunks)] *)
Definition Buffer_concat (chunks : list (list Byte.byte)) : list Byte.byte :=
  concat chunks.

(** ** Values

    The values [JSON.parse] can return, and [undefined].  A number keeps the
    decimal numeral it was read from, [(-1)^neg * digits * 10^exp10]: the
    handler only asks whether it is zero as a double.  An object keeps its
    members as written; where a key is repeated the last member is the
    property's value. *)

Record number := { neg : bool; digits : N; exp10 : Z }.

#[warnings="-register-all"]
Inductive value :=
| Undefined
| Null
| Boolean (b : bool)
| Number (n : number)
| String (s : jsstring)
| Array (elems : list value)
| Object (members : list (jsstring * value)).

(** The numeral denotes the double 0 or -0.  Rounding to nearest, ties to
    even, sends to zero exactly the reals of magnitude at most [2^-1075],
    half of the least positive double [2^-1074]. *)
Definition number_is_zero (n : number) : bool :=
  (digits n =? 0)%N ||
  ((exp10 n <? 0)%Z &&
   (Z.of_N (digits n) * 2 ^ 1075 <=? 10 ^ (- exp10 n))%Z).

(** [ToBoolean] *)
Definition truthy (v : value) : bool :=
  match v with
  | Undefined | Null => false
  | Boolean b => b
  | Number n => negb (number_is_zero n)
  | String s => nonempty s
  | Array _ | Object _ => true
  end.

(** [v === s] for a string [s]: no conversion takes place. *)
Definition strict_eq_string (v : value) (s : jsstring) : bool :=
  match v with
  | String t => eqb t s
  | _ => false
  end.

(** The own property [key] of an object with these members. *)
Fixpoint lookup (key : jsstring) (members : list (jsstring * value)) : option value :=
  match members with
  | [] => None
  | (k, v) :: rest =>
      match lookup key rest with
      | Some w => Some w
      | None => if eqb k key then Some v else None
      end
  end.

(** ** [JSON.parse]

    The JSON grammar of ECMA-404, as ECMAScript reads it: first the text is
    cut into tokens by a machine that reads one code unit at a time, then
    the tokens are assembled by a machine with a stack of open arrays and
    objects. *)

Inductive token :=
| TLBrace | TRBrace | TLBracket | TRBracket | TColon | TComma
| TString (s : jsstring)
| TNumber (n : number)
| TTrue | TFalse | TNull.

(** Where in the numeral [-? int frac? exp?] the reader is. *)
Inductive numphase :=
| NMinus | NZero | NInt | NDot | NFrac | NExp | NExpSign | NExpDigits.

Record numeral := {
  n_neg : bool;       (* a leading minus *)
  n_digits : N;       (* the integer and fraction digits read as one integer *)
  n_frac : Z;         (* how many of them are fraction digits *)
  n_eneg : bool;      (* a minus in the exponent *)
  n_exp : N }.        (* the exponent's digits *)

Inductive lexer :=
| LIdle
| LString (acc : jsstring)                    (* inside a string; [acc] reversed *)
| LEscape (acc : jsstring)                    (* after a backslash *)
| LUnicode (acc : jsstring) (k : nat) (v : N) (* in \uXXXX, [S k] digits to come *)
| LKeyword (rest : jsstring) (t : token)      (* in true, false or null *)
| LNumber (p : numphase) (a : numeral).

Definition is_ws (c : N) : bool :=
  (c =? 9)%N || (c =? 10)%N || (c =? 13)%N || (c =? 32)%N.

Definition digit (c : N) : option N :=
  if ((48 <=? c) && (c <=? 57))%N then Some (c - 48)%N else None.

Definition hex_digit (c : N) : option N :=
  if ((48 <=? c) && (c <=? 57))%N then Some (c - 48)%N
  else if ((97 <=? c) && (c <=? 102))%N then Some (c - 87)%N
  else if ((65 <=? c) && (c <=? 70))%N then Some (c - 55)%N
  else None.

(** Is [c] the ASCII character [b]?  (34 is the double quote.) *)
Definition is_char (c : N) (b : Byte.byte) : bool := (c =? ch b)%N.

Definition numeral0 (minus : bool) (d : N) : numeral :=
  {| n_neg := minus; n_digits := d; n_frac := 0; n_eneg := false; n_exp := 0 |}.

Definition push_int (a : numeral) (d : N) : numeral :=
  {| n_neg := n_neg a; n_digits := (10 * n_digits a + d)%N; n_frac := n_frac a;
     n_eneg := n_eneg a; n_exp := n_exp a |}.

Definition push_frac (a : numeral) (d : N) : numeral :=
  {| n_neg := n_neg a; n_digits := (10 * n_digits a + d)%N;
     n_frac := (n_frac a + 1)%Z; n_eneg := n_eneg a; n_exp := n_exp a |}.

Definition push_exp (a : numeral) (d : N) : numeral :=
  {| n_neg := n_neg a; n_digits := n_digits a; n_frac := n_frac a;
     n_eneg := n_eneg a; n_exp := (10 * n_exp a + d)%N |}.

Definition exp_minus (a : numeral) : numeral :=
  {| n_neg := n_neg a; n_digits := n_digits a; n_frac := n_frac a;
     n_eneg := true; n_exp := n_exp a |}.

(** The numeral goes on with [c], or [c] is not part of it. *)
Definition number_step (p : numphase) (a : numeral) (c : N)
  : option (numphase * numeral) :=
  let exponent := is_char c "e" || is_char c "E" in
  match p with
  | NMinus =>
      match digit c with
      | Some d => Some (if (d =? 0)%N then NZero else NInt, push_int a d)
      | None => None
      end
  | NZero =>
      if is_char c "." then Some (NDot, a)
      else if exponent then Some (NExp, a) else None
  | NInt =>
      match digit c with
      | Some d => Some (NInt, push_int a d)
      | None =>
          if is_char c "." then Some (NDot, a)
          else if exponent then Some (NExp, a) else None
      end
  | NDot =>
      match digit c with
      | Some d => Some (NFrac, push_frac a d)
      | None => None
      end
  | NFrac =>
      match digit c with
      | Some d => Some (NFrac, push_frac a d)
      | None => if exponent then Some (NExp, a) else None
      end
  | NExp =>
      match digit c with
      | Some d => Some (NExpDigits, push_exp a d)
      | None =>
          if is_char c "+" then Some (NExpSign, a)
          else if is_char c "-" then Some (NExpSign, exp_minus a) else None
      end
  | NExpSign | NExpDigits =>
      match digit c with
      | Some d => Some (NExpDigits, push_exp a d)
      | None => None
      end
  end.

(** The numeral may end here. *)
Definition number_done (p : numphase) (a : numeral) : option token :=
  match p with
  | NZero | NInt | NFrac | NExpDigits =>
      let e := if n_eneg a then (- Z.of_N (n_exp a))%Z else Z.of_N (n_exp a) in
      Some (TNumber {| neg := n_neg a; digits := n_digits a;
                       exp10 := (e - n_frac a)%Z |})
  | NMinus | NDot | NExp | NExpSign => None
  end.

(** A code unit read between tokens. *)
Definition lex_idle (c : N) : option (list token * lexer) :=
  if is_ws c then Some ([], LIdle)
  else if is_char c "{" then Some ([TLBrace], LIdle)
  else if is_char c "}" then Some ([TRBrace], LIdle)
  else if is_char c "[" then Some ([TLBracket], LIdle)
  else if is_char c "]" then Some ([TRBracket], LIdle)
  else if is_char c ":" then Some ([TColon], LIdle)
  else if is_char c "," then Some ([TComma], LIdle)
  else if (c =? 34)%N then Some ([], LString [])
  else if is_char c "t" then Some ([], LKeyword "rue" TTrue)
  else if is_char c "f" then Some ([], LKeyword "alse" TFalse)
  else if is_char c "n" then Some ([], LKeyword "ull" TNull)
  else if is_char c "-" then Some ([], LNumber NMinus (numeral0 true 0))
  else
    match digit c with
    | Some d => Some ([], LNumber (if (d =? 0)%N then NZero else NInt) (numeral0 false d))
    | None => None
    end.

(** The character a one-letter escape stands for. *)
Definition escape (c : N) : option N :=
  if (c =? 34)%N || is_char c "\" || is_char c "/" then Some c
  else if is_char c "b" then Some 8%N
  else if is_char c "f" then Some 12%N
  else if is_char c "n" then Some 10%N
  else if is_char c "r" then Some 13%N
  else if is_char c "t" then Some 9%N
  else None.

Definition lex_step (st : lexer) (c : N) : option (list token * lexer) :=
  match st with
  | LIdle => lex_idle c
  | LString acc =>
      if (c =? 34)%N then Some ([TString (rev acc)], LIdle)
      else if is_char c "\" then Some ([], LEscape acc)
      else if (c <? 32)%N then None
      else Some ([], LString (c :: acc))
  | LEscape acc =>
      if is_char c "u" then Some ([], LUnicode acc 3 0)
      else
        match escape c with
        | Some e => Some ([], LString (e :: acc))
        | None => None
        end
  | LUnicode acc k v =>
      match hex_digit c with
      | Some h =>
          let v' := (16 * v + h)%N in
          match k with
          | O => Some ([], LString (v' :: acc))
          | S k' => Some ([], LUnicode acc k' v')
          end
      | None => None
      end
  | LKeyword rest t =>
      match rest with
      | [] => None
      | [e] => if (c =? e)%N then Some ([t], LIdle) else None
      | e :: rest' => if (c =? e)%N then Some ([], LKeyword rest' t) else None
      end
  | LNumber p a =>
      match number_step p a c with
      | Some (p', a') => Some ([], LNumber p' a')
      | None =>
          match number_done p a, lex_idle c with
          | Some t, Some (out, st') => Some (t :: out, st')
          | _, _ => None
          end
      end
  end.

Fixpoint lex (st : lexer) (s : jsstring) : option (list token) :=
  match s with
  | [] =>
      match st with
      | LIdle => Some []
      | LNumber p a => option_map (fun t => [t]) (number_done p a)
      | _ => None
      end
  | c :: r =>
      match lex_step st c with
      | Some (out, st') => option_map (app out) (lex st' r)
      | None => None
      end
  end.

(** An array or object that is still open, with what it holds so far (in
    reverse) and, for an object, the key whose value is being read. *)
Inductive frame :=
| FArray (acc : list value)
| FObject (acc : list (jsstring * value)) (key : jsstring).

Inductive parser :=
| PValue (stack : list frame)                  (* a value must come *)
| PArrayOpen (stack : list frame)              (* after [: a value or ] *)
| PArrayNext (acc : list value) (stack : list frame)   (* after an element *)
| PObjectOpen (stack : list frame)             (* after {: a key or } *)
| PObjectKey (acc : list (jsstring * value)) (stack : list frame) (* after , *)
| PObjectColon (acc : list (jsstring * value)) (key : jsstring) (stack : list frame)
| PObjectNext (acc : list (jsstring * value)) (stack : list frame) (* after a member *)
| PDone (v : value).

(** A value is complete: it is the result, or it goes into the innermost
    open array or object. *)
Definition close (v : value) (stack : list frame) : parser :=
  match stack with
  | [] => PDone v
  | FArray acc :: rest => PArrayNext (v :: acc) rest
  | FObject acc key :: rest => PObjectNext ((key, v) :: acc) rest
  end.

Definition parse_value (t : token) (stack : list frame) : option parser :=
  match t with
  | TLBrace => Some (PObjectOpen stack)
  | TLBracket => Some (PArrayOpen stack)
  | TString s => Some (close (String s) stack)
  | TNumber n => Some (close (Number n) stack)
  | TTrue => Some (close (Boolean true) stack)
  | TFalse => Some (close (Boolean false) stack)
  | TNull => Some (close Null stack)
  | TRBrace | TRBracket | TColon | TComma => None
  end.

Definition parse_step (st : parser) (t : token) : option parser :=
  match st with
  | PValue stack => parse_value t stack
  | PArrayOpen stack =>
      match t with
      | TRBracket => Some (close (Array []) stack)
      | _ => parse_value t (FArray [] :: stack)
      end
  | PArrayNext acc stack =>
      match t with
      | TComma => Some (PValue (FArray acc :: stack))
      | TRBracket => Some (close (Array (rev acc)) stack)
      | _ => None
      end
  | PObjectOpen stack =>
      match t with
      | TRBrace => Some (close (Object []) stack)
      | TString key => Some (PObjectColon [] key stack)
      | _ => None
      end
  | PObjectKey acc stack =>
      match t with
      | TString key => Some (PObjectColon acc key stack)
      | _ => None
      end
  | PObjectColon acc key stack =>
      match t with
      | TColon => Some (PValue (FObject acc key :: stack))
      | _ => None
      end
  | PObjectNext acc stack =>
      match t with
      | TComma => Some (PObjectKey acc stack)
      | TRBrace => Some (close (Object (rev acc)) stack)
      | _ => None
      end
  | PDone _ => None
  end.

Fixpoint parse (st : parser) (ts : list token) : option value :=
  match ts with
  | [] => match st with PDone v => Some v | _ => None end
  | t :: rest =>
      match parse_step st t with
      | Some st' => parse st' rest
      | None => None
      end
  end.

(** The value a JSON text denotes, [None] when it is not a JSON text. *)
Definition json_value (text : jsstring) : option value :=
  match lex LIdle text with
  | Some ts => parse (PValue []) ts
  | None => None
  end.

(** ** Errors

    What the handler can catch are [Error] objects: a [SyntaxError] of
    [JSON.parse], a [TypeError] of a destructuring or of [fetch], whatever an
    upstream read rejects with.  Their messages are the engine's business. *)

Record error := { name : jsstring; message : jsstring }.

(** [String(err)], that is [Error.prototype.toString]. *)
Definition String_of_error (e : error) : jsstring :=
  match name e, message e with
  | [], m => m
  | n, [] => n
  | n, m => n ++ ": " ++ m
  end.

(** The messages the engine words its own errors with. *)
Record engine := {
  syntax_error_message : jsstring -> jsstring;   (* of [JSON.parse(text)] *)
  destructure_message : value -> jsstring }.     (* of [const {..} = null] *)

Definition SyntaxError (m : jsstring) : error := {| name := "SyntaxError"; message := m |}.
Definition TypeError (m : jsstring) : error := {| name := "TypeError"; message := m |}.

(** [JSON.parse(text)]: the value, or the [SyntaxError] thrown.  (The limits
    of an engine's resources, such as the depth of nesting it can read, are
    not modelled.) *)
Definition JSON_parse (E : engine) (text : jsstring) : value + error :=
  match json_value text with
  | Some v => inl v
  | None => inr (SyntaxError (syntax_error_message E text))
  end.

End JS.

(* ================================================================== *)
(** * Requests, responses and effects *)
(* ================================================================== *)

Module Http.
Import JS.

(** ** The inbound request: what the handler reads of [req]. *)
Record request := {
  method : jsstring;                       (* [req.method] *)
  content_type : option jsstring;          (* [req.headers['content-type']] *)
  chunks : list (list Byte.byte) }.        (* the buffers the stream yields *)

(** ** Outbound calls: the arguments of one [fetch(url, init)]. *)
Inductive payload :=
| JSON_stringify (v : value)               (* [body: JSON.stringify(v)] *)
| Raw (buf : list Byte.byte).              (* [body: rawBuffer] *)

Record call := {
  url : jsstring;
  call_method : jsstring;
  call_headers : list (jsstring * jsstring);
  call_body : payload }.

(** ** Upstream responses: [r.status] and what [r.text()] and
    [r.arrayBuffer()] settle with. *)
Record upstream := {
  status : Z;
  text : jsstring + error;
  arrayBuffer : list Byte.byte + error }.

(** [r.ok]: the status is in the range 200-299. *)
Definition ok (r : upstream) : bool :=
  (200 <=? status r)%Z && (status r <=? 299)%Z.

(** The network: each [fetch] resolves with a response or rejects. *)
Definition network := call -> upstream + error.

(** ** The response [res] under construction. *)
Inductive body :=
| Json (v : value)                         (* [res.json(v)] *)
| Bytes (buf : list Byte.byte).            (* [res.send(buf)] *)

Record response := {
  statusCode : Z;
  headers : list (jsstring * jsstring);    (* set with [res.setHeader] *)
  sent : option body }.

(** An argument of [console.error]. *)
Inductive logged :=
| LogString (s : jsstring)
| LogStatus (n : Z)
| LogError (e : error).

(** ** The state of one invocation *)
Record world := {
  consumed : bool;                         (* the request stream was read *)
  calls : list call;                       (* the [fetch] calls, latest last *)
  console : list (list logged);            (* the [console.error] lines *)
  res : response }.

Definition initial : world :=
  {| consumed := false; calls := []; console := [];
     res := {| statusCode := 200; headers := []; sent := None |} |}.

(** ** Computations: they change the world and return or throw. *)
Definition M (A : Type) : Type := world -> (A + error) * world.

Definition ret {A} (a : A) : M A := fun w => (inl a, w).

Definition throw {A} (e : error) : M A := fun w => (inr e, w).

Definition bind {A B} (m : M A) (k : A -> M B) : M B :=
  fun w =>
    match m w with
    | (inl a, w') => k a w'
    | (inr e, w') => (inr e, w')
    end.

(** [try { m } catch (err) { h err }] *)
Definition try_catch {A} (m : M A) (h : error -> M A) : M A :=
  fun w =>
    match m w with
    | (inl a, w') => (inl a, w')
    | (inr e, w') => h e w'
    end.

(** A value or a thrown error, as a computation. *)
Definition settle {A} (r : A + error) : M A :=
  match r with
  | inl a => ret a
  | inr e => throw e
  end.

Definition update (f : world -> world) : M unit := fun w => (inl tt, f w).

Declare Scope monad_scope.
Delimit Scope monad_scope with monad.
Notation "x <- m ;; k" := (bind m (fun x => k))
  (at level 61, m at next level, right associativity) : monad_scope.
Notation "' pat <- m ;; k" := (bind m (fun x => match x with pat => k end))
  (at level 61, pat pattern, m at next level, right associativity) : monad_scope.
Notation "m ;; k" := (bind m (fun _ => k))
  (at level 61, right associativity) : monad_scope.
Open Scope monad_scope.

(** [for await (const chunk of req) chunks.push(chunk)] *)
Definition read_stream (req : request) : M (list (list Byte.byte)) :=
  update (fun w => {| consumed := true; calls := calls w;
                      console := console w; res := res w |}) ;;
  ret (chunks req).

(** [await fetch(url, init)] *)
Definition fetch (net : network) (c : call) : M upstream :=
  update (fun w => {| consumed := consumed w; calls := calls w ++ [c];
                      console := console w; res := res w |}) ;;
  settle (net c).

(** [console.error(...)] *)
Definition console_error (line : list logged) : M unit :=
  update (fun w => {| consumed := consumed w; calls := calls w;
                      console := console w ++ [line]; res := res w |}).

Definition on_res (f : response -> response) : M unit :=
  update (fun w => {| consumed := consumed w; calls := calls w;
                      console := console w; res := f (res w) |}).

(** [res.status(code)] *)
Definition res_status (code : Z) : M unit :=
  on_res (fun r => {| statusCode := code; headers := headers r; sent := sent r |}).

(** [res.setHeader(name, v)]: header names do not depend on case. *)
Definition res_setHeader (name v : jsstring) : M unit :=
  on_res (fun r =>
    {| statusCode := statusCode r;
       headers :=
         filter (fun h => negb (eqb (toLowerCase (fst h)) (toLowerCase name)))
                (headers r) ++ [(name, v)];
       sent := sent r |}).

(** [res.json(v)] and [res.send(buf)] end the response.  (The content type
    that [json] itself announces is not recorded.) *)
Definition res_json (v : value) : M unit :=
  on_res (fun r => {| statusCode := statusCode r; headers := headers r;
                      sent := Some (Json v) |}).

Definition res_send (buf : list Byte.byte) : M unit :=
  on_res (fun r => {| statusCode := statusCode r; headers := headers r;
                      sent := Some (Bytes buf) |}).

End Http.

(* ================================================================== *)
(** * [api/voice.js] *)
(* ================================================================== *)

Module Voice.
Import JS Http.

(** [process.env]: each variable is a string or is not set. *)
Record environment := {
  env_RVC_SERVER_URL : option jsstring;
  env_GEMINI_API_KEY : option jsstring;
  env_GEMINI_TTS_URL : option jsstring }.

(** The number 24000. *)
Definition sample_rate : number := {| neg := false; digits := 24000; exp10 := 0 |}.

(** [v.key] for a key that no prototype defines, as [text], [language] and
    [mode] are: the own property of an object, [undefined] on every other
    value that has properties. *)
Definition get (v : value) (key : jsstring) : value :=
  match v with
  | Object members =>
      match lookup key members with
      | Some x => x
      | None => Undefined
      end
  | _ => Undefined
  end.

(** A default of a destructuring pattern replaces [undefined] only. *)
Definition default (v d : value) : value :=
  match v with
  | Undefined => d
  | _ => v
  end.

(** [const { text, language = 'en', mode = 'cloned' } = body] (line 40):
    the values of the three variables when [body] has properties, and the
    three together; [null] and [undefined] cannot be destructured. *)
Definition text_of (body : value) : value := get body "text".
Definition language_of (body : value) : value :=
  default (get body "language") (String "en").
Definition mode_of (body : value) : value :=
  default (get body "mode") (String "cloned").

Definition bindings (body : value) : option (value * value * value) :=
  match body with
  | Undefined | Null => None
  | _ => Some (text_of body, language_of body, mode_of body)
  end.

Section Handler.

Variable E : engine.
Variable env : environment.
Variable net : network.

Definition RVC_SERVER_URL : jsstring := or_default (env_RVC_SERVER_URL env) "".
Definition GEMINI_API_KEY : jsstring := or_default (env_GEMINI_API_KEY env) "".
Definition GEMINI_TTS_URL : jsstring :=
  or_default (env_GEMINI_TTS_URL env)
    "https://api.generativeai.googleapis.com/v1beta2/speech:generate".

Definition readRawRequest (req : request) : M (list Byte.byte) :=
  chunks <- read_stream req ;;
  ret (Buffer_concat chunks).

(** The destructuring as a step of the handler: it throws a [TypeError]
    where there is nothing to destructure. *)
Definition destructure (body : value) : M (value * value * value) :=
  match bindings body with
  | Some vars => ret vars
  | None => throw (TypeError (destructure_message E body))
  end.

(** [{ error: msg }] and [{ error: msg, details: d }] *)
Definition error_body (msg : jsstring) : value :=
  Object [("error", String msg)].

Definition error_details (msg d : jsstring) : value :=
  Object [("error", String msg); ("details", String d)].

(** [`${RVC_SERVER_URL.replace(/\/$/,'')}/synthesize`] *)
Definition synthesize_url : jsstring :=
  replace_trailing_slash RVC_SERVER_URL ++ "/synthesize".

(** The handler, [module.exports]. *)
Definition handler (req : request) : M unit :=
  if negb (eqb (method req) "POST") then
    res_status 405 ;; res_json (error_body "Only POST allowed")
  else
    try_catch
      (let contentType := toLowerCase (or_default (content_type req) "") in
       rawBuffer <- readRawRequest req ;;
       if includes contentType "application/json" then
         let bodyText := or_string (Buffer_toString_utf8 rawBuffer) "{}" in
         body <- settle (JSON_parse E bodyText) ;;
         '(text, language, mode) <- destructure body ;;
         if negb (truthy text) then
           res_status 400 ;; res_json (error_body "Missing text field in JSON body")
         else if strict_eq_string mode "cloned" && nonempty RVC_SERVER_URL then
           r <- fetch net
                  {| url := synthesize_url;
                     call_method := "POST";
                     call_headers := [("Content-Type", "application/json")];
                     call_body :=
                       JSON_stringify (Object [("text", text); ("language", language)]) |} ;;
           if negb (ok r) then
             errText <- settle (Http.text r) ;;
             console_error [LogString "RVC synth error:"; LogStatus (status r);
                            LogString errText] ;;
             res_status 502 ;;
             res_json (error_details "RVC synth failed" (substring 0 200 errText))
           else
             ab <- settle (arrayBuffer r) ;;
             res_setHeader "Content-Type" "audio/wav" ;;
             res_status 200 ;; res_send ab
         else if negb (nonempty GEMINI_API_KEY) then
           res_status 500 ;;
           res_json (error_body "No RVC_SERVER_URL or GEMINI_API_KEY configured")
         else
           gRes <- fetch net
                     {| url := GEMINI_TTS_URL;
                        call_method := "POST";
                        call_headers :=
                          [("Content-Type", "application/json");
                           ("Authorization", "Bearer " ++ GEMINI_API_KEY)];
                        call_body :=
                          JSON_stringify
                            (Object
                               [("input", Object [("text", text)]);
                                ("audio",
                                 Object [("encoding", String "LINEAR16");
                                         ("sampleRateHertz", Number sample_rate)])]) |} ;;
           if negb (ok gRes) then
             txt <- settle (Http.text gRes) ;;
             console_error [LogString "Gemini TTS error:"; LogStatus (status gRes);
                            LogString txt] ;;
             res_status 502 ;;
             res_json (error_details "Gemini TTS failed" (substring 0 300 txt))
           else
             gab <- settle (arrayBuffer gRes) ;;
             res_setHeader "Content-Type" "audio/wav" ;;
             res_status 200 ;; res_send gab
       else if negb (nonempty RVC_SERVER_URL) then
         res_status 400 ;;
         res_json (error_body
           "This endpoint received audio, but RVC_SERVER_URL is not set. Set RVC_SERVER_URL to forward audio.")
       else
         let forwardUrl := synthesize_url in
         r <- fetch net
                {| url := forwardUrl;
                   call_method := "POST";
                   call_headers :=
                     [("Content-Type",
                       or_default (content_type req) "application/octet-stream")];
                   call_body := Raw rawBuffer |} ;;
         if negb (ok r) then
           txt <- settle (Http.text r) ;;
           console_error [LogString "RVC (audio) error:"; LogStatus (status r);
                          LogString txt] ;;
           res_status 502 ;;
           res_json (error_details "RVC audio processing failed" (substring 0 200 txt))
         else
           rab <- settle (arrayBuffer r) ;;
           res_setHeader "Content-Type" "audio/wav" ;;
           res_status 200 ;; res_send rab)
      (fun err =>
         console_error [LogString "voice.js error"; LogError err] ;;
         res_status 500 ;;
         res_json (error_details "Internal server error"
                     (substring 0 300 (String_of_error err)))).

(** The world after one invocation on [req]. *)
Definition run (req : request) : world := snd (handler req initial).

(** ** The parts of the handler the properties speak about *)

(** The three [fetch] calls of the handler: [text] and [language] as JSON
    to the cloning server (line 51), [text] to the TTS endpoint (line 78),
    the raw body to the cloning server (line 114). *)
Definition synth_call (text language : value) : call :=
  {| url := synthesize_url;
     call_method := "POST";
     call_headers := [("Content-Type", "application/json")];
     call_body := JSON_stringify (Object [("text", text); ("language", language)]) |}.

Definition tts_call (text : value) : call :=
  {| url := GEMINI_TTS_URL;
     call_method := "POST";
     call_headers :=
       [("Content-Type", "application/json");
        ("Authorization", "Bearer " ++ GEMINI_API_KEY)];
     call_body :=
       JSON_stringify
         (Object
            [("input", Object [("text", text)]);
             ("audio",
              Object [("encoding", String "LINEAR16");
                      ("sampleRateHertz", Number sample_rate)])]) |}.

Definition audio_call (req : request) : call :=
  {| url := synthesize_url;
     call_method := "POST";
     call_headers :=
       [("Content-Type", or_default (content_type req) "application/octet-stream")];
     call_body := Raw (Buffer_concat (chunks req)) |}.

End Handler.

(** [contentType] (line 31) and the test of line 37. *)
Definition contentType (req : request) : jsstring :=
  toLowerCase (or_default (content_type req) "").

Definition is_json (req : request) : bool :=
  includes (contentType req) "application/json".

(** [rawBuffer] (line 34), its decoding and [bodyText] (line 38). *)
Definition rawBuffer (req : request) : list Byte.byte :=
  Buffer_concat (chunks req).

Definition decoded (req : request) : jsstring :=
  Buffer_toString_utf8 (rawBuffer req).

Definition bodyText (req : request) : jsstring :=
  or_string (decoded req) "{}".

(** The condition of line 48. *)
Definition cloned (env : environment) (body : value) : bool :=
  strict_eq_string (mode_of body) "cloned" && nonempty (RVC_SERVER_URL env).

(** Where a call comes from: the raw branch, or one of the two calls of the
    JSON branch. *)
Inductive origin (env : environment) (req : request) (c : call) : Prop :=
| from_audio :
    is_json req = false ->
    nonempty (RVC_SERVER_URL env) = true ->
    c = audio_call env req ->
    origin env req c
| from_synth (body : value) :
    is_json req = true ->
    json_value (bodyText req) = Some body ->
    truthy (text_of body) = true ->
    cloned env body = true ->
    c = synth_call env (text_of body) (language_of body) ->
    origin env req c
| from_tts (body : value) :
    is_json req = true ->
    json_value (bodyText req) = Some body ->
    truthy (text_of body) = true ->
    cloned env body = false ->
    nonempty (GEMINI_API_KEY env) = true ->
    c = tts_call env (text_of body) ->
    origin env req c.

(** An error response: [res.status(code).json(v)] and nothing else. *)
Definition error_response (code : Z) (v : value) : response :=
  {| statusCode := code; headers := []; sent := Some (Json v) |}.

(** The world after a request that was answered with [r] before any call
    and any log. *)
Definition rejected (r : response) : world :=
  {| consumed := true; calls := []; console := []; res := r |}.

(** The world the [catch] clause leaves when [err] was thrown after the
    calls [cs]: the error is logged and the answer is 500. *)
Definition caught (cs : list call) (err : error) : world :=
  {| consumed := true; calls := cs;
     console := [[LogString "voice.js error"; LogError err]];
     res := error_response 500
              (error_details "Internal server error"
                 (substring 0 300 (String_of_error err))) |}.

(** The world after the call [c] was answered with the audio [audio]. *)
Definition delivered (c : call) (audio : list Byte.byte) : world :=
  {| consumed := true; calls := [c]; console := [];
     res := {| statusCode := 200;
               headers := [("Content-Type", "audio/wav")];
               sent := Some (Bytes audio) |} |}.

(** The world after the call [c] was answered with the status [code] and
    the text [t]: the line logged begins with [log], the answer is 502 with
    [label] and the first [limit] code units of [t]. *)
Definition failed (c : call) (log label : jsstring) (limit : nat)
                  (code : Z) (t : jsstring) : world :=
  {| consumed := true; calls := [c];
     console := [[LogString log; LogStatus code; LogString t]];
     res := error_response 502 (error_details label (substring 0 limit t)) |}.

(** The ways through the handler, each with the world it ends in: the
    answers given before any call, the errors thrown before any call, and
    for the call made what the network did with it. *)
Inductive outcome (E : engine) (env : environment) (net : network)
                  (req : request) : world -> Prop :=
| refused_method :
    method req <> "POST" ->
    outcome E env net req
      {| consumed := false; calls := []; console := [];
         res := error_response 405 (error_body "Only POST allowed") |}
| thrown_by_parse :
    method req = "POST" ->
    is_json req = true ->
    json_value (bodyText req) = None ->
    outcome E env net req
      (caught [] (SyntaxError (syntax_error_message E (bodyText req))))
| thrown_by_destructuring (body : value) :
    method req = "POST" ->
    is_json req = true ->
    json_value (bodyText req) = Some body ->
    bindings body = None ->
    outcome E env net req (caught [] (TypeError (destructure_message E body)))
| refused_text (body : value) :
    method req = "POST" ->
    is_json req = true ->
    json_value (bodyText req) = Some body ->
    bindings body <> None ->
    truthy (text_of body) = false ->
    outcome E env net req
      (rejected (error_response 400 (error_body "Missing text field in JSON body")))
| refused_provider (body : value) :
    method req = "POST" ->
    is_json req = true ->
    json_value (bodyText req) = Some body ->
    truthy (text_of body) = true ->
    cloned env body = false ->
    nonempty (GEMINI_API_KEY env) = false ->
    outcome E env net req
      (rejected (error_response 500
                   (error_body "No RVC_SERVER_URL or GEMINI_API_KEY configured")))
| refused_audio :
    method req = "POST" ->
    is_json req = false ->
    nonempty (RVC_SERVER_URL env) = false ->
    outcome E env net req
      (rejected (error_response 400
         (error_body
            "This endpoint received audio, but RVC_SERVER_URL is not set. Set RVC_SERVER_URL to forward audio.")))
| call_rejected (c : call) (e : error) :
    method req = "POST" ->
    origin env req c ->
    net c = inr e ->
    outcome E env net req (caught [c] e)
| call_delivered (c : call) (r : upstream) (audio : list Byte.byte) :
    method req = "POST" ->
    origin env req c ->
    net c = inl r ->
    ok r = true ->
    arrayBuffer r = inl audio ->
    outcome E env net req (delivered c audio)
| audio_unreadable (c : call) (r : upstream) (e : error) :
    method req = "POST" ->
    origin env req c ->
    net c = inl r ->
    ok r = true ->
    arrayBuffer r = inr e ->
    outcome E env net req (caught [c] e)
| text_unreadable (c : call) (r : upstream) (e : error) :
    method req = "POST" ->
    origin env req c ->
    net c = inl r ->
    ok r = false ->
    Http.text r = inr e ->
    outcome E env net req (caught [c] e)
| synth_failed (body : value) (r : upstream) (t : jsstring) :
    method req = "POST" ->
    is_json req = true ->
    json_value (bodyText req) = Some body ->
    truthy (text_of body) = true ->
    cloned env body = true ->
    net (synth_call env (text_of body) (language_of body)) = inl r ->
    ok r = false ->
    Http.text r = inl t ->
    outcome E env net req
      (failed (synth_call env (text_of body) (language_of body))
              "RVC synth error:" "RVC synth failed" 200 (status r) t)
| tts_failed (body : value) (r : upstream) (t : jsstring) :
    method req = "POST" ->
    is_json req = true ->
    json_value (bodyText req) = Some body ->
    truthy (text_of body) = true ->
    cloned env body = false ->
    nonempty (GEMINI_API_KEY env) = true ->
    net (tts_call env (text_of body)) = inl r ->
    ok r = false ->
    Http.text r = inl t ->
    outcome E env net req
      (failed (tts_call env (text_of body))
              "Gemini TTS error:" "Gemini TTS failed" 300 (status r) t)
| audio_failed (r : upstream) (t : jsstring) :
    method req = "POST" ->
    is_json req = false ->
    nonempty (RVC_SERVER_URL env) = true ->
    net (audio_call env req) = inl r ->
    ok r = false ->
    Http.text r = inl t ->
    outcome E env net req
      (failed (audio_call env req)
              "RVC (audio) error:" "RVC audio processing failed" 200 (status r) t).

End Voice.

(* ================================================================== *)
(** * Sample engines, configurations, networks and requests *)
(* ================================================================== *)

Module Sample.
Import JS Http Voice.

(** An engine, with messages in the manner of V8. *)
Definition V8 : engine :=
  {| syntax_error_message := fun _ => "Unexpected token";
     destructure_message :=
       fun _ => "Cannot destructure property 'text' of 'body' as it is null." |}.

Definition configure (rvc key : option jsstring) : environment :=
  {| env_RVC_SERVER_URL := rvc; env_GEMINI_API_KEY := key;
     env_GEMINI_TTS_URL := None |}.

Definition both : environment := configure (Some "https://gpu.example.com/") (Some "k3y").
Definition rvc_only : environment := configure (Some "https://gpu.example.com") None.
Definition tts_only : environment := configure None (Some "k3y").
Definition neither : environment := configure None None.

(** The bytes of an ASCII text in which apostrophes stand for double
    quotes. *)
Definition ascii (s : jsstring) : list Byte.byte :=
  flat_map (fun u =>
              if (u =? 39)%N then [x22]
              else match Byte.of_N u with Some b => [b] | None => [] end) s.

Definition post (ct : option jsstring) (body : list (list Byte.byte)) : request :=
  {| method := "POST"; content_type := ct; chunks := body |}.

Definition json : option jsstring := Some "application/json".

Definition hi_cloned : request := post json [ascii "{'text':'hi','mode':'cloned'}"].
Definition hi_normal : request :=
  post json [ascii "{'text':'hi',"; ascii "'mode':'normal','language':'fr'}"].
Definition hi_normal_de : request :=
  post (Some "Application/JSON; charset=utf-8")
       [ascii "{'language':'de','mode':'normal','text':'hi'}"].
Definition no_text : request := post json [ascii "{'language':'fr'}"].
Definition empty_text : request := post json [ascii "{'text':0.0e7}"].
Definition no_body : request := post json [].
Definition null_request : request := post json [ascii "null"].
Definition bad_json : request := post json [ascii "{text}"].
Definition recording : request := post (Some "audio/webm") [ascii "RI"; ascii "FF"].
Definition untyped : request := post None [ascii "RIFF"].
Definition empty_type : request := post (Some "") [ascii "RIFF"].
Definition get_request : request :=
  {| method := "GET"; content_type := json; chunks := [ascii "{'text':'hi'}"] |}.

(** Networks: every call answered with a status and a body, or rejected. *)
Definition answers (code : Z) (body : jsstring) : network :=
  fun _ => inl {| status := code; Http.text := inl body;
                  arrayBuffer := inl (ascii body) |}.

Definition down : network := fun _ => inr (TypeError "fetch failed").

(** A network whose answers break off before their body: the status
    arrives, reading the body rejects. *)
Definition cut_off (code : Z) : network :=
  fun _ => inl {| status := code;
                  Http.text := inr (TypeError "terminated");
                  arrayBuffer := inr (TypeError "terminated") |}.

(** More requests: a body with [text] alone, one whose [mode] is [null],
    the bytes of [hi_normal] in one chunk and in many, a JSON type written
    in capitals inside a longer header, and a method in lower case. *)
Definition hi_only : request := post json [ascii "{'text':'hi'}"].
Definition hi_null_mode : request := post json [ascii "{'text':'hi','mode':null}"].
Definition hi_normal_whole : request :=
  post json [ascii "{'text':'hi','mode':'normal','language':'fr'}"].
Definition hi_normal_pieces : request :=
  post json [ascii "{'te"; []; ascii "xt':'hi','mode':'nor"; ascii "mal','language':'fr'}"; []].
Definition odd_type : request :=
  post (Some "text/plain; was=Application/JSON") [].

(** Configurations that differ in how a variable is left out, and in the
    slash that ends the URL. *)
Definition tts_only_blank : environment := configure (Some "") (Some "k3y").

End Sample.

(* ================================================================== *)
(** * Properties of the handler *)
(* ================================================================== *)

Import JS Http Voice.

(** ** The run time on examples *)

Example decode_ascii :
  Buffer_toString_utf8 (Sample.ascii "{'text':'hi'}") = [123; 34; 116; 101; 120; 116; 34; 58; 34; 104; 105; 34; 125]%N.
Proof. reflexivity. Qed.

(** The euro sign, an emoji outside the basic plane, a lead byte followed by
    a byte that does not continue it, and a sequence cut short. *)
Example decode_utf8 :
  Buffer_toString_utf8 [xe2; x82; xac; xf0; x9f; x98; x80; xc3; x28; xe2; x82]
  = [0x20AC; 0xD83D; 0xDE00; 0xFFFD; 0x28; 0xFFFD]%N.
Proof. reflexivity. Qed.

Example parse_object :
  json_value (Buffer_toString_utf8
                (Sample.ascii " { 'a' : [1, -2.50e+3, true, null, {}, []], 'b\u0041\n': 'x' } "))
  = Some (Object
            [("a", Array [Number {| neg := false; digits := 1; exp10 := 0 |};
                          Number {| neg := true; digits := 250; exp10 := 1 |};
                          Boolean true; Null; Object []; Array []]);
             ([98; 65; 10]%N, String "x")]).
Proof. reflexivity. Qed.

Example parse_rejects :
  map json_value ["[1,]"; "01"; "1."; ".5"; "+1"; "nul"; "truefalse"; "[1 2]";
                  "{text}"; "{} {}"; "'hi'"; ""]
  = repeat None 12.
Proof. reflexivity. Qed.

Example repeated_key :
  option_map text_of
    (json_value (Buffer_toString_utf8 (Sample.ascii "{'text':'a','text':'b'}")))
  = Some (String "b").
Proof. reflexivity. Qed.

(** Zero, a numeral that rounds to zero, and the least numerals that do
    not. *)
Example falsy_numbers :
  map (fun s => option_map truthy (json_value s))
      ["0"; "-0.0e5"; "1e-400"; "2.4703282292062327e-324";
       "2.4703282292062328e-324"; "5e-324"; "1"]
  = [Some false; Some false; Some false; Some false;
     Some true; Some true; Some true].
Proof. vm_compute. reflexivity. Qed.

Example other_bodies :
  map bindings [Null; Boolean true; String "hi"; Array []; Object [("mode", Null)]]
  = [None;
     Some (Undefined, String "en", String "cloned");
     Some (Undefined, String "en", String "cloned");
     Some (Undefined, String "en", String "cloned");
     Some (Undefined, String "en", Null)].
Proof. reflexivity. Qed.

Example trailing_slash :
  map replace_trailing_slash ["https://gpu/"; "https://gpu"; "https://gpu//"; ""]
  = ["https://gpu"; "https://gpu"; "https://gpu/"; ""].
Proof. reflexivity. Qed.

Example error_strings :
  map String_of_error
      [TypeError "fetch failed"; {| name := "Error"; message := "" |};
       {| name := ""; message := "boom" |}]
  = ["TypeError: fetch failed"; "Error"; "boom"].
Proof. reflexivity. Qed.

(** ** Facts about the run time *)

Lemma string_eqb_eq (s t : jsstring) : eqb s t = true <-> s = t.
Proof.
  revert t; induction s as [|a s IH]; intros [|b t]; simpl; split;
    try congruence; try reflexivity.
  - intros H. apply andb_true_iff in H as [Hab Hst].
    apply N.eqb_eq in Hab. apply IH in Hst. congruence.
  - intros H. injection H as -> ->.
    rewrite N.eqb_refl. simpl. now apply IH.
Qed.

Lemma string_eqb_neq (s t : jsstring) : eqb s t = false <-> s <> t.
Proof.
  split.
  - intros H Heq. apply string_eqb_eq in Heq. congruence.
  - intros H. destruct (eqb s t) eqn:Heq; [|reflexivity].
    apply string_eqb_eq in Heq. contradiction.
Qed.

Lemma nonempty_false (s : jsstring) : nonempty s = false <-> s = "".
Proof. destruct s; simpl; split; congruence. Qed.

(** [v === s] holds for the string [s] itself and for nothing else. *)
Lemma strict_eq_string_spec (v : value) (s : jsstring) :
  strict_eq_string v s = true <-> v = String s.
Proof.
  destruct v; simpl; split; try discriminate.
  - intros H. apply string_eqb_eq in H. now subst.
  - intros H. injection H as ->. now apply string_eqb_eq.
Qed.

(** Lowering the case keeps the occurrences of a string, lowered. *)
Lemma startsWith_toLowerCase (s t : jsstring) :
  startsWith s t = true -> startsWith (toLowerCase s) (toLowerCase t) = true.
Proof.
  revert s. induction t as [|b t IH]; intros [|a s]; simpl; try congruence.
  intros H. apply andb_true_iff in H as [Hab Hst].
  apply N.eqb_eq in Hab. subst. rewrite N.eqb_refl. simpl. now apply IH.
Qed.

Lemma includes_toLowerCase (s t : jsstring) :
  includes s t = true -> includes (toLowerCase s) (toLowerCase t) = true.
Proof.
  induction s as [|a s IH]; simpl; intros H; apply orb_true_iff in H;
    apply orb_true_iff; destruct H as [H|H].
  - left. now apply (startsWith_toLowerCase []).
  - discriminate.
  - left. now apply (startsWith_toLowerCase (a :: s)).
  - right. now apply IH.
Qed.

(** A header that contains [application/json] as it stands passes the test
    of line 37, which looks at the lowered header. *)
Lemma is_json_literal (req : request) :
  includes (or_default (content_type req) "") "application/json" = true ->
  is_json req = true.
Proof. intros H. now apply includes_toLowerCase in H. Qed.

(** [substring(0, n)] returns at most [n] code units, and the string itself
    when it has no more than [n]. *)
Lemma substring_prefix (n : nat) (s : jsstring) : substring 0 n s = firstn n s.
Proof.
  unfold substring. simpl.
  rewrite Nat.sub_0_r.
  destruct (Nat.le_ge_cases n (length s)) as [H|H].
  - now rewrite Nat.min_l.
  - rewrite Nat.min_r by assumption.
    now rewrite !firstn_all2 by lia.
Qed.

Lemma substring_length (n : nat) (s : jsstring) : length (substring 0 n s) <= n.
Proof. rewrite substring_prefix, length_firstn. apply Nat.le_min_l. Qed.

Lemma substring_short (n : nat) (s : jsstring) :
  length s <= n -> substring 0 n s = s.
Proof. intros H. rewrite substring_prefix. now apply firstn_all2. Qed.

(** [JSON.parse] never returns [undefined]. *)
Lemma close_defined (v : value) (stack : list frame) (w : value) :
  v <> Undefined -> close v stack = PDone w -> w <> Undefined.
Proof.
  intros Hv H. destruct stack as [|[acc|acc key] rest]; simpl in H;
    try discriminate.
  injection H as <-. exact Hv.
Qed.

Lemma parse_value_defined (t : token) (stack : list frame) (w : value) :
  parse_value t stack = Some (PDone w) -> w <> Undefined.
Proof.
  destruct t; simpl; intros H; try discriminate; injection H as H;
    eapply close_defined; try exact H; discriminate.
Qed.

Lemma parse_step_defined (st : parser) (t : token) (w : value) :
  parse_step st t = Some (PDone w) -> w <> Undefined.
Proof.
  destruct st; simpl; intros H; try discriminate;
    try (now apply parse_value_defined in H);
    destruct t; try discriminate;
    try (now apply parse_value_defined in H);
    injection H as H; eapply close_defined; try exact H; discriminate.
Qed.

Lemma parse_defined (ts : list token) (st : parser) (v : value) :
  (forall w, st = PDone w -> w <> Undefined) ->
  parse st ts = Some v -> v <> Undefined.
Proof.
  revert st. induction ts as [|t ts IH]; intros st Hst; simpl.
  - destruct st; try discriminate. intros H. injection H as <-. now apply Hst.
  - destruct (parse_step st t) as [st'|] eqn:Hstep; [|discriminate].
    apply IH. intros w ->. now apply parse_step_defined in Hstep.
Qed.

Lemma json_value_defined (text : jsstring) (v : value) :
  json_value text = Some v -> v <> Undefined.
Proof.
  unfold json_value. destruct (lex LIdle text) as [ts|]; [|discriminate].
  apply parse_defined. discriminate.
Qed.

(** A buffer that is not empty decodes to a string that is not empty. *)
Lemma utf8_first_progress (b : N) :
  fst (utf8_first b) <> [] \/ snd (utf8_first b) <> None.
Proof.
  unfold utf8_first.
  repeat match goal with
         | |- context [if ?c then _ else _] => destruct c
         end; simpl; (left; discriminate) || (right; discriminate).
Qed.

Lemma utf8_step_progress (st : option pending) (b : N) :
  fst (utf8_step st b) <> [] \/ snd (utf8_step st b) <> None.
Proof.
  destruct st as [p|]; simpl; [|apply utf8_first_progress].
  destruct ((p_lower p <=? b)%N && (b <=? p_upper p)%N).
  - destruct (p_left p) as [|[|k]]; simpl;
      (left; discriminate) || (right; discriminate).
  - destruct (utf8_first b). left. discriminate.
Qed.

Lemma utf8_decode_progress (l : list Byte.byte) (st : option pending) :
  l <> [] \/ st <> None -> utf8_decode st l <> [].
Proof.
  revert st. induction l as [|b l IH]; intros st H; simpl.
  - destruct st; [discriminate|]. destruct H; congruence.
  - pose proof (utf8_step_progress st (Byte.to_N b)) as Hstep.
    destruct (utf8_step st (Byte.to_N b)) as [out st']. simpl in Hstep.
    destruct out as [|cp out]; [|discriminate].
    simpl. apply IH. right. destruct Hstep; congruence.
Qed.

Lemma Buffer_toString_nonempty (buf : list Byte.byte) :
  buf <> [] -> nonempty (Buffer_toString_utf8 buf) = true.
Proof.
  intros H. unfold Buffer_toString_utf8.
  pose proof (utf8_decode_progress buf None (or_introl H)) as Hd.
  destruct (utf8_decode None buf) as [|cp cps]; [congruence|].
  simpl. unfold utf16_units. destruct (cp <? 65536)%N; reflexivity.
Qed.

(** ** Running the handler symbolically *)

(** Unfold the monad and the handler, leaving the functions of the run time
    folded so that the hypotheses about them can be used. *)
Ltac exec :=
  cbv beta iota zeta delta
    [run handler try_catch bind ret throw settle update read_stream
     readRawRequest fetch console_error on_res res_status res_setHeader
     res_json res_send JSON_parse fst snd initial
     consumed calls console res negb].

(** Take the tests about the request out of the way. *)
Ltac enter Hpost Hjson :=
  apply string_eqb_eq in Hpost;
  unfold is_json, contentType in Hjson;
  exec; rewrite Hpost; exec; rewrite Hjson; exec.

(** Case analysis on what the network answers. *)
Ltac answer :=
  repeat match goal with
  | |- context [match ?n ?c with inl _ => _ | inr _ => _ end] =>
      destruct (n c) as [?r|?e]
  | |- context [if ok ?r then _ else _] => destruct (ok r) eqn:?Hok
  | |- context [match Http.text ?r with inl _ => _ | inr _ => _ end] =>
      destruct (Http.text r) as [?t|?e]
  | |- context [match arrayBuffer ?r with inl _ => _ | inr _ => _ end] =>
      destruct (arrayBuffer r) as [?b|?e]
  end.

(** Case analysis on every test the handler makes. *)
Ltac cases :=
  cbv beta iota zeta delta
    [run handler try_catch bind ret throw settle update read_stream
     readRawRequest fetch console_error on_res res_status res_setHeader
     res_json res_send JSON_parse fst snd initial destructure bindings
     consumed calls console res];
  repeat (match goal with
          | |- context [eqb (method ?r) ?s] =>
              destruct (eqb (method r) s) eqn:?Hpost
          | |- context [includes ?a ?b] => destruct (includes a b) eqn:?Hjson
          | |- context [json_value ?s] =>
              destruct (json_value s) as [[]|] eqn:?Hbody
          | |- context [truthy ?v] => destruct (truthy v) eqn:?Htext
          | |- context [strict_eq_string ?m ?s && nonempty ?u] =>
              destruct (strict_eq_string m s && nonempty u) eqn:?Hcloned
          | |- context [negb (nonempty ?u)] => destruct (nonempty u) eqn:?Hset
          | |- context [match ?n ?c with inl _ => _ | inr _ => _ end] =>
              destruct (n c) as [?r|?e] eqn:?Hnet
          | |- context [negb (ok ?r)] => destruct (ok r) eqn:?Hok
          | |- context [match Http.text ?r with inl _ => _ | inr _ => _ end] =>
              destruct (Http.text r) as [?t|?e] eqn:?Htxt
          | |- context [match arrayBuffer ?r with inl _ => _ | inr _ => _ end] =>
              destruct (arrayBuffer r) as [?b|?e] eqn:?Hbuf
          end; cbn [negb];
          cbv beta iota zeta delta [consumed calls console res]).

(** ** The branches of the handler *)


Section Branches.

Variable E : engine.
Variable env : environment.
Variable net : network.

Lemma destructure_defined (body : value) :
  body <> Undefined -> body <> Null ->
  destructure E body = ret (text_of body, language_of body, mode_of body).
Proof. destruct body; try reflexivity; congruence. Qed.

Lemma truthy_text_object (body : value) :
  truthy (text_of body) = true -> body <> Undefined /\ body <> Null.
Proof. destruct body; simpl; intros H; try discriminate; split; discriminate. Qed.

Lemma bindings_some (body text language mode : value) :
  bindings body = Some (text, language, mode) ->
  body <> Undefined /\ body <> Null /\
  text = text_of body /\ language = language_of body /\ mode = mode_of body.
Proof.
  destruct body; simpl; intros H; try discriminate; injection H as <- <- <-;
    repeat split; discriminate.
Qed.

Lemma cloned_true (body : value) :
  cloned env body = true <->
  mode_of body = String "cloned" /\ nonempty (RVC_SERVER_URL env) = true.
Proof.
  unfold cloned. rewrite andb_true_iff, strict_eq_string_spec. reflexivity.
Qed.

Lemma cloned_false (body : value) :
  cloned env body = false <->
  mode_of body <> String "cloned" \/ nonempty (RVC_SERVER_URL env) = false.
Proof.
  unfold cloned. rewrite andb_false_iff. split; intros [H|H]; auto; left.
  - intros Heq. apply strict_eq_string_spec in Heq. congruence.
  - destruct (strict_eq_string (mode_of body) "cloned") eqn:Heq; [|reflexivity].
    apply strict_eq_string_spec in Heq. contradiction.
Qed.

(** The empty body stands for the empty object. *)
Lemma empty_body (req : request) :
  rawBuffer req = [] -> json_value (bodyText req) = Some (Object []).
Proof. unfold bodyText, decoded. intros ->. reflexivity. Qed.

Lemma run_parse_error (req : request) :
  method req = "POST" ->
  is_json req = true ->
  json_value (bodyText req) = None ->
  run E env net req =
    caught [] (SyntaxError (syntax_error_message E (bodyText req))).
Proof.
  intros Hpost Hjson Hbody.
  unfold bodyText, decoded, rawBuffer in *.
  enter Hpost Hjson. rewrite Hbody. reflexivity.
Qed.

Lemma run_null (req : request) :
  method req = "POST" ->
  is_json req = true ->
  json_value (bodyText req) = Some Null ->
  run E env net req = caught [] (TypeError (destructure_message E Null)).
Proof.
  intros Hpost Hjson Hbody.
  unfold bodyText, decoded, rawBuffer in *.
  enter Hpost Hjson. rewrite Hbody. reflexivity.
Qed.

Lemma run_falsy_text (req : request) (body : value) :
  method req = "POST" ->
  is_json req = true ->
  json_value (bodyText req) = Some body ->
  body <> Null ->
  truthy (text_of body) = false ->
  run E env net req =
    rejected (error_response 400 (error_body "Missing text field in JSON body")).
Proof.
  intros Hpost Hjson Hbody Hnull Htext.
  pose proof (json_value_defined _ _ Hbody) as Hdef.
  unfold bodyText, decoded, rawBuffer in Hbody.
  enter Hpost Hjson. rewrite Hbody.
  rewrite (destructure_defined body Hdef Hnull).
  exec. rewrite Htext. reflexivity.
Qed.

(** From here on the JSON body has a truthy [text]. *)
Section Json.

Variables (req : request) (body : value).
Hypothesis Hpost : method req = "POST".
Hypothesis Hjson : is_json req = true.
Hypothesis Hbody : json_value (bodyText req) = Some body.
Hypothesis Htext : truthy (text_of body) = true.

Ltac enter_json :=
  let Hp := fresh in let Hj := fresh in let Hb := fresh in
  pose proof Hpost as Hp; pose proof Hjson as Hj; pose proof Hbody as Hb;
  destruct (truthy_text_object _ Htext) as [?Hu ?Hn];
  unfold bodyText, decoded, rawBuffer in Hb;
  enter Hp Hj; rewrite Hb;
  rewrite (destructure_defined body) by assumption;
  exec; rewrite Htext.

Lemma calls_synth :
  cloned env body = true ->
  calls (run E env net req) = [synth_call env (text_of body) (language_of body)].
Proof.
  unfold cloned. intros Hcloned. enter_json. rewrite Hcloned.
  exec. answer; reflexivity.
Qed.

Lemma calls_tts :
  cloned env body = false ->
  nonempty (GEMINI_API_KEY env) = true ->
  calls (run E env net req) = [tts_call env (text_of body)].
Proof.
  unfold cloned. intros Hcloned Hkey. enter_json. rewrite Hcloned, Hkey.
  exec. answer; reflexivity.
Qed.

Lemma run_no_provider :
  cloned env body = false ->
  nonempty (GEMINI_API_KEY env) = false ->
  run E env net req =
    rejected (error_response 500
                (error_body "No RVC_SERVER_URL or GEMINI_API_KEY configured")).
Proof.
  unfold cloned. intros Hcloned Hkey. enter_json. rewrite Hcloned, Hkey.
  reflexivity.
Qed.



End Json.

(** The raw branch. *)
Section Audio.

Variable req : request.
Hypothesis Hpost : method req = "POST".
Hypothesis Hjson : is_json req = false.

Ltac enter_audio :=
  let Hp := fresh in let Hj := fresh in
  pose proof Hpost as Hp; pose proof Hjson as Hj; enter Hp Hj.

Lemma run_audio_unset :
  nonempty (RVC_SERVER_URL env) = false ->
  run E env net req =
    rejected (error_response 400
      (error_body
         "This endpoint received audio, but RVC_SERVER_URL is not set. Set RVC_SERVER_URL to forward audio.")).
Proof. intros Hrvc. enter_audio. rewrite Hrvc. reflexivity. Qed.

Lemma calls_audio :
  nonempty (RVC_SERVER_URL env) = true ->
  calls (run E env net req) = [audio_call env req].
Proof. intros Hrvc. enter_audio. rewrite Hrvc. exec. answer; reflexivity. Qed.


End Audio.

Lemma calls_origin (req : request) (c : call) :
  In c (calls (run E env net req)) -> method req = "POST" /\ origin env req c.
Proof.
  assert (Hfalse : forall v, v = Undefined -> truthy v = true -> False)
    by (intros v ->; discriminate).
  cases; intros Hin; try (destruct Hin as [<-|[]]); try (now destruct Hin);
    try (exfalso; eapply Hfalse; [|eassumption]; reflexivity);
    (split; [now apply string_eqb_eq|]).
  all: first [ now apply from_audio
             | eapply from_synth; try eassumption; reflexivity
             | eapply from_tts; try eassumption; reflexivity ].
Qed.

End Branches.

(** ** The claims

    Throughout, a request is JSON when it passes the test of line 37: its
    [Content-Type] header, lower-cased, contains [application/json] (a
    header that is not there counts as the empty string).  [RVC_SERVER_URL]
    and [GEMINI_API_KEY] are configured when they are set and not empty. *)

Section Claims.

Variable E : engine.
Variable env : environment.
Variable net : network.

(** C1. A JSON POST request whose parsed body has a truthy [text]: when
    [mode === "cloned"] and [RVC_SERVER_URL] is not empty, the one call made
    is a POST to the cloning server's [/synthesize] with the JSON of
    [{text, language}] (no [mode]); otherwise the handler turns to the TTS
    endpoint, and when [GEMINI_API_KEY] is empty it answers 500
    [{error: "No RVC_SERVER_URL or GEMINI_API_KEY configured"}] without any
    call.  ([text], [language] and [mode] are the variables of line 40.) *)
Theorem json_routing (req : request) (body text language mode : value) :
  method req = "POST" ->
  is_json req = true ->
  json_value (bodyText req) = Some body ->
  bindings body = Some (text, language, mode) ->
  truthy text = true ->
  let w := run E env net req in
  (mode = String "cloned" ->
   nonempty (RVC_SERVER_URL env) = true ->
     calls w =
       [{| url := replace_trailing_slash (RVC_SERVER_URL env) ++ "/synthesize";
           call_method := "POST";
           call_headers := [("Content-Type", "application/json")];
           call_body :=
             JSON_stringify (Object [("text", text); ("language", language)]) |}]) /\
  (mode <> String "cloned" \/ nonempty (RVC_SERVER_URL env) = false ->
     (nonempty (GEMINI_API_KEY env) = true -> calls w = [tts_call env text]) /\
     (nonempty (GEMINI_API_KEY env) = false ->
        calls w = [] /\
        res w = error_response 500
                  (error_body "No RVC_SERVER_URL or GEMINI_API_KEY configured"))).
Proof.
  intros Hpost Hjson Hbody Hvars Htext w.
  apply bindings_some in Hvars as (_ & _ & -> & -> & ->).
  split.
  - intros Hmode Hrvc. apply (calls_synth E env net req body); try assumption.
    now apply cloned_true.
  - intros Hother. apply cloned_false in Hother.
    split; intros Hkey.
    + now apply (calls_tts E env net req body).
    + unfold w. rewrite (run_no_provider E env net req body) by assumption.
      split; reflexivity.
Qed.

(** C2, as amended.  A POST request that is not JSON, with [RVC_SERVER_URL]
    set: the one call made is a POST to the cloning server's [/synthesize]
    whose body is the inbound body, byte for byte, and whose only header is
    a [Content-Type] equal to the inbound one, or to
    [application/octet-stream] when the inbound header is absent or
    empty. *)
Theorem audio_forwarding (req : request) :
  method req = "POST" ->
  is_json req = false ->
  nonempty (RVC_SERVER_URL env) = true ->
  exists h,
    calls (run E env net req) =
      [{| url := replace_trailing_slash (RVC_SERVER_URL env) ++ "/synthesize";
          call_method := "POST";
          call_headers := [("Content-Type", h)];
          call_body := Raw (concat (chunks req)) |}] /\
    (forall v, content_type req = Some v -> v <> "" -> h = v) /\
    (content_type req = None \/ content_type req = Some "" ->
       h = "application/octet-stream").
Proof.
  intros Hpost Hjson Hrvc.
  exists (or_default (content_type req) "application/octet-stream").
  split; [now apply calls_audio|]. split.
  - intros v -> Hv. destruct v; [congruence|reflexivity].
  - intros [->| ->]; reflexivity.
Qed.


(** C4. A JSON POST request whose parsed body has a falsy [text] (no such
    member, the empty string, [null], [false], zero) is answered 400
    [{error: "Missing text field in JSON body"}] and nothing is fetched; so
    is a request with an empty body, which is read as [{}]. *)
Theorem missing_text (req : request) :
  method req = "POST" ->
  is_json req = true ->
  let reply :=
    {| consumed := true; calls := []; console := [];
       res := error_response 400 (error_body "Missing text field in JSON body") |} in
  (forall body text language mode,
     json_value (bodyText req) = Some body ->
     bindings body = Some (text, language, mode) ->
     truthy text = false ->
     run E env net req = reply) /\
  (rawBuffer req = [] ->
     json_value (bodyText req) = Some (Object []) /\
     bindings (Object []) = Some (Undefined, String "en", String "cloned") /\
     run E env net req = reply).
Proof.
  intros Hpost Hjson reply. split.
  - intros body text language mode Hbody Hvars Htext.
    apply bindings_some in Hvars as (_ & Hnull & -> & _ & _).
    now apply run_falsy_text with body.
  - intros Hraw. pose proof (empty_body req Hraw) as Hbody.
    split; [exact Hbody|]. split; [reflexivity|].
    apply run_falsy_text with (Object []); try assumption; [discriminate|reflexivity].
Qed.

(** C5. A POST request that is not JSON, with [RVC_SERVER_URL] unset or
    empty, is answered 400 with the message that names [RVC_SERVER_URL], and
    nothing is fetched.  Whatever the configuration, every call such a
    request gives rise to is the forwarding call to the cloning server,
    never the call to the TTS endpoint. *)
Theorem audio_needs_cloning_server (req : request) :
  method req = "POST" ->
  is_json req = false ->
  let w := run E env net req in
  (nonempty (RVC_SERVER_URL env) = false ->
     w = {| consumed := true; calls := []; console := [];
            res := error_response 400
                     (error_body
                        "This endpoint received audio, but RVC_SERVER_URL is not set. Set RVC_SERVER_URL to forward audio.") |}) /\
  (forall c, In c (calls w) ->
     c = audio_call env req /\ forall text, c <> tts_call env text).
Proof.
  intros Hpost Hjson w. split.
  - now apply run_audio_unset.
  - intros c Hc. subst w.
    destruct (nonempty (RVC_SERVER_URL env)) eqn:Hrvc.
    + rewrite calls_audio in Hc by assumption.
      destruct Hc as [<-|[]]. split; [reflexivity|discriminate].
    + rewrite run_audio_unset in Hc by assumption. destruct Hc.
Qed.

(** C6. A JSON POST request whose body is not empty and is not a JSON text
    is answered 500, not 400: the [SyntaxError] of [JSON.parse] reaches the
    only [catch], which answers [{error: "Internal server error", details}]
    with the first 300 code units of the error's string form. *)
Theorem invalid_json (req : request) :
  method req = "POST" ->
  is_json req = true ->
  rawBuffer req <> [] ->
  json_value (decoded req) = None ->
  let err := SyntaxError (syntax_error_message E (decoded req)) in
  let details := substring 0 300 (String_of_error err) in
  JSON_parse E (bodyText req) = inr err /\
  run E env net req =
    {| consumed := true; calls := [];
       console := [[LogString "voice.js error"; LogError err]];
       res := error_response 500 (error_details "Internal server error" details) |} /\
  length details <= 300.
Proof.
  intros Hpost Hjson Hne Hbad err details.
  assert (Htext : bodyText req = decoded req).
  { unfold bodyText, or_string, decoded.
    now rewrite (Buffer_toString_nonempty _ Hne). }
  split; [|split; [|apply substring_length]].
  - unfold JSON_parse. rewrite Htext, Hbad. reflexivity.
  - rewrite run_parse_error; rewrite ?Htext; try assumption. reflexivity.
Qed.


(** C8. A request whose method is not POST is answered 405 with
    [{error: "Only POST allowed"}] and nothing else happens: the body is
    not read, nothing is fetched and nothing is logged, whatever the content
    type and the configuration. *)
Theorem non_post_rejected (req : request) :
  method req <> "POST" ->
  run E env net req =
    {| consumed := false; calls := []; console := [];
       res := error_response 405 (error_body "Only POST allowed") |}.
Proof.
  intros H. apply string_eqb_neq in H.
  exec. rewrite H. reflexivity.
Qed.

(** C9. Whatever the request, the configuration and the network, at most
    one call is made, so the call to the cloning server and the call to the
    TTS endpoint exclude each other; and a request answered 405, 400 or
    with the 500 of the missing configuration has made no call. *)
Theorem at_most_one_call (req : request) :
  let w := run E env net req in
  length (calls w) <= 1 /\
  (forall c c', In c (calls w) -> In c' (calls w) -> c = c') /\
  (statusCode (res w) = 405%Z \/ statusCode (res w) = 400%Z -> calls w = []) /\
  (sent (res w) =
     Some (Json (error_body "No RVC_SERVER_URL or GEMINI_API_KEY configured")) ->
   calls w = []).
Proof.
  intros w. generalize (eq_refl w). unfold w at 2. generalize w. clear w.
  intros w. cases; intros ->; (split; [simpl; lia|]);
    (split; [intros c c' Hc Hc'|]);
    try (split; [intros [H|H]|intros H]); try reflexivity;
    try discriminate H; simpl in Hc, Hc'; intuition congruence.
Qed.

(** C10. A JSON POST request whose body is the four bytes [null] is answered
    500 [{error: "Internal server error", ...}], not 400: [JSON.parse]
    returns [null], the destructuring of line 40 throws a [TypeError], and
    the only [catch] answers; the test of [text] is not reached. *)
Theorem null_literal_body (req : request) :
  method req = "POST" ->
  is_json req = true ->
  rawBuffer req = ["n"; "u"; "l"; "l"]%byte ->
  let err := TypeError (destructure_message E Null) in
  JSON_parse E (bodyText req) = inl Null /\
  destructure E Null = throw err /\
  run E env net req =
    {| consumed := true; calls := [];
       console := [[LogString "voice.js error"; LogError err]];
       res := error_response 500
                (error_details "Internal server error"
                   (substring 0 300 (String_of_error err))) |}.
Proof.
  intros Hpost Hjson Hraw err.
  assert (Hbody : json_value (bodyText req) = Some Null).
  { unfold bodyText, decoded. rewrite Hraw. reflexivity. }
  split; [|split].
  - unfold JSON_parse. now rewrite Hbody.
  - reflexivity.
  - now apply run_null.
Qed.

End Claims.

(** ** The claims on sample requests *)

Import Sample.

Lemma json_routing_witness :
  calls (run V8 both (answers 200 "RIFF") hi_cloned) =
    [{| url := "https://gpu.example.com/synthesize";
        call_method := "POST";
        call_headers := [("Content-Type", "application/json")];
        call_body :=
          JSON_stringify
            (Object [("text", String "hi"); ("language", String "en")]) |}] /\
  calls (run V8 both (answers 200 "RIFF") hi_normal) =
    [tts_call both (String "hi")] /\
  (calls (run V8 rvc_only (answers 200 "RIFF") hi_normal) = [] /\
   res (run V8 rvc_only (answers 200 "RIFF") hi_normal) =
     error_response 500
       (error_body "No RVC_SERVER_URL or GEMINI_API_KEY configured")).
Proof.
  split; [|split].
  - refine (proj1 (json_routing V8 both (answers 200 "RIFF") hi_cloned
                     (Object [("text", String "hi"); ("mode", String "cloned")])
                     (String "hi") (String "en") (String "cloned")
                     _ _ _ _ _) _ _);
      reflexivity.
  - refine (proj1 (proj2 (json_routing V8 both (answers 200 "RIFF") hi_normal
                            (Object [("text", String "hi");
                                     ("mode", String "normal");
                                     ("language", String "fr")])
                            (String "hi") (String "fr") (String "normal")
                            _ _ _ _ _) (or_introl _)) _);
      try reflexivity; discriminate.
  - refine (proj2 (proj2 (json_routing V8 rvc_only (answers 200 "RIFF") hi_normal
                            (Object [("text", String "hi");
                                     ("mode", String "normal");
                                     ("language", String "fr")])
                            (String "hi") (String "fr") (String "normal")
                            _ _ _ _ _) (or_introl _)) _);
      try reflexivity; discriminate.
Defined.

(** C2 as it is stated fails on a request whose [Content-Type] header is
    present and empty: the call carries [application/octet-stream], not the
    empty inbound value. *)
Lemma audio_forwarding_empty_header :
  ~ (forall (E : engine) (env : environment) (net : network) (req : request),
       method req = "POST" ->
       is_json req = false ->
       nonempty (RVC_SERVER_URL env) = true ->
       forall c, In c (calls (run E env net req)) ->
         call_body c = Raw (rawBuffer req) /\
         In ("Content-Type",
             match content_type req with
             | Some v => v
             | None => "application/octet-stream"
             end) (call_headers c)).
Proof.
  intros H.
  destruct (H V8 rvc_only (answers 200 "RIFF") empty_type
              eq_refl eq_refl eq_refl
              (audio_call rvc_only empty_type) (or_introl eq_refl))
    as [_ [Hh|[]]].
  discriminate Hh.
Qed.

Lemma audio_forwarding_witness :
  exists h,
    calls (run V8 rvc_only (answers 200 "RIFF") recording) =
      [{| url := "https://gpu.example.com/synthesize";
          call_method := "POST";
          call_headers := [("Content-Type", h)];
          call_body := Raw (ascii "RIFF") |}] /\
    (forall v, Some "audio/webm" = Some v -> v <> "" -> h = v) /\
    (Some "audio/webm" = None \/ Some "audio/webm" = Some "" ->
       h = "application/octet-stream").
Proof.
  apply (audio_forwarding V8 rvc_only (answers 200 "RIFF") recording);
    reflexivity.
Defined.


Lemma missing_text_witness :
  run V8 both down no_text =
    rejected (error_response 400 (error_body "Missing text field in JSON body")) /\
  run V8 both down empty_text =
    rejected (error_response 400 (error_body "Missing text field in JSON body")) /\
  run V8 both down no_body =
    rejected (error_response 400 (error_body "Missing text field in JSON body")).
Proof.
  split; [|split].
  - refine (proj1 (missing_text V8 both down no_text _ _)
              (Object [("language", String "fr")])
              Undefined (String "fr") (String "cloned") _ _ _);
      reflexivity.
  - refine (proj1 (missing_text V8 both down empty_text _ _)
              (Object [("text", Number {| neg := false; digits := 0; exp10 := 6 |})])
              (Number {| neg := false; digits := 0; exp10 := 6 |})
              (String "en") (String "cloned") _ _ _);
      reflexivity.
  - refine (proj2 (proj2 (proj2 (missing_text V8 both down no_body _ _) _)));
      reflexivity.
Defined.

Lemma audio_needs_cloning_server_witness :
  run V8 tts_only (answers 200 "RIFF") recording =
    rejected (error_response 400
      (error_body
         "This endpoint received audio, but RVC_SERVER_URL is not set. Set RVC_SERVER_URL to forward audio.")).
Proof.
  refine (proj1 (audio_needs_cloning_server V8 tts_only (answers 200 "RIFF")
                   recording _ _) _);
    reflexivity.
Defined.

Lemma invalid_json_witness :
  res (run V8 both down bad_json) =
    error_response 500
      (error_details "Internal server error" "SyntaxError: Unexpected token").
Proof.
  refine (f_equal res
            (proj1 (proj2 (invalid_json V8 both down bad_json _ _ _ _))));
    try reflexivity; discriminate.
Defined.


Lemma non_post_rejected_witness :
  run V8 both (answers 200 "RIFF") get_request =
    {| consumed := false; calls := []; console := [];
       res := error_response 405 (error_body "Only POST allowed") |}.
Proof.
  apply (non_post_rejected V8 both (answers 200 "RIFF") get_request).
  discriminate.
Defined.

Lemma at_most_one_call_witness :
  statusCode (res (run V8 neither down hi_cloned)) = 500%Z /\
  calls (run V8 neither down hi_cloned) = [].
Proof.
  split; [reflexivity|].
  refine (proj2 (proj2 (proj2 (at_most_one_call V8 neither down hi_cloned))) _).
  reflexivity.
Defined.

Lemma null_literal_body_witness :
  res (run V8 both down null_request) =
    error_response 500
      (error_details "Internal server error"
         "TypeError: Cannot destructure property 'text' of 'body' as it is null.").
Proof.
  refine (f_equal res
            (proj2 (proj2 (null_literal_body V8 both down null_request _ _ _))));
    reflexivity.
Defined.

(** ** Every way through the handler *)

Section Outcomes.

Variable E : engine.
Variable env : environment.
Variable net : network.

(** The handler returns (its promise is never rejected) and the world it
    leaves is one of the outcomes. *)
Lemma handler_outcome (req : request) :
  fst (handler E env net req initial) = inl tt /\
  outcome E env net req (run E env net req).
Proof.
  pose proof (calls_origin E env net req) as Horigin.
  unfold run in *.
  remember (handler E env net req initial) as p eqn:Hp.
  revert Horigin. revert p Hp.
  cases; intros p -> Horigin; (split; [reflexivity|]);
    cbv beta iota delta [fst snd calls] in *;
    match goal with
    | H : eqb _ _ = true |- _ => apply string_eqb_eq in H
    | H : eqb _ _ = false |- _ => apply string_eqb_neq in H
    end;
    try (match goal with
         | H : truthy _ = true |- _ => now (exfalso; cbv in H)
         end);
    try (destruct (Horigin _ (or_introl eq_refl)) as [_ Hc]);
    cbn [statusCode headers sent app filter];
    try (econstructor;
         solve [eassumption | reflexivity | discriminate]).
Qed.

End Outcomes.

(** Case analysis on the outcome of [run E env net req]; [In c [c']]
    leaves [c = c']. *)
Ltac outcomes E env net req :=
  let Ho := fresh "Ho" in
  let w := fresh "w" in
  let Hw := fresh "Hw" in
  pose proof (proj2 (handler_outcome E env net req)) as Ho;
  remember (run E env net req) as w eqn:Hw;
  destruct Ho;
  unfold caught, delivered, failed, rejected, error_response in *;
  cbn [consumed calls console res statusCode headers sent] in *;
  repeat match goal with
         | H : In _ [] |- _ => destruct H
         | H : In _ [_] |- _ => destruct H as [<-|[]]
         end.

Lemma startsWith_app (t b : jsstring) : startsWith (t ++ b) t = true.
Proof.
  induction t as [|c t IH]; simpl; [now destruct b|]. now rewrite N.eqb_refl.
Qed.

Lemma includes_startsWith (s t : jsstring) :
  startsWith s t = true -> includes s t = true.
Proof. destruct s; simpl; intros ->; reflexivity. Qed.

Lemma includes_app (a t b : jsstring) : includes (a ++ t ++ b) t = true.
Proof.
  induction a as [|c a IH]; simpl.
  - apply includes_startsWith, startsWith_app.
  - rewrite IH. apply orb_true_r.
Qed.



Section Extras.

Variable E : engine.
Variable env : environment.
Variable net : network.

(** X1. When the call made is answered with a status in 200-299, the
    handler answers 200 with the header [Content-Type: audio/wav] and the
    bytes of the answer as they are, in each of the three branches, and
    logs nothing. *)
Theorem audio_relayed (req : request) (c : call) (r : upstream)
                      (audio : list Byte.byte) :
  In c (calls (run E env net req)) ->
  net c = inl r ->
  ok r = true ->
  arrayBuffer r = inl audio ->
  run E env net req =
    {| consumed := true; calls := [c]; console := [];
       res := {| statusCode := 200;
                 headers := [("Content-Type", "audio/wav")];
                 sent := Some (Bytes audio) |} |}.
Proof.
  intros Hin Hnet Hok Haudio.
  outcomes E env net req; congruence.
Qed.

(** X2. When [fetch] rejects (the server cannot be reached, the URL is not
    one), the error reaches the [catch]: it is logged, and the answer is 500
    [{error: "Internal server error", details}] with the first 300 code
    units of the error's string form; the call is not tried again. *)
Theorem fetch_rejected (req : request) (c : call) (e : error) :
  In c (calls (run E env net req)) ->
  net c = inr e ->
  run E env net req =
    {| consumed := true; calls := [c];
       console := [[LogString "voice.js error"; LogError e]];
       res := error_response 500
                (error_details "Internal server error"
                   (substring 0 300 (String_of_error e))) |}.
Proof.
  intros Hin Hnet.
  outcomes E env net req; congruence.
Qed.

(** X3. When the answer arrives but its body cannot be read ([r.text()] of
    a failure, [r.arrayBuffer()] of a success rejects), the answer to the
    caller is the 500 of the [catch], not 502 and not 200. *)
Theorem body_unreadable (req : request) (c : call) (r : upstream) (e : error) :
  In c (calls (run E env net req)) ->
  net c = inl r ->
  (ok r = true /\ arrayBuffer r = inr e) \/ (ok r = false /\ Http.text r = inr e) ->
  run E env net req =
    {| consumed := true; calls := [c];
       console := [[LogString "voice.js error"; LogError e]];
       res := error_response 500
                (error_details "Internal server error"
                   (substring 0 300 (String_of_error e))) |}.
Proof.
  intros Hin Hnet [[Hok Hbody]|[Hok Hbody]];
    outcomes E env net req; congruence.
Qed.

(** X4. Every invocation returns without throwing and has sent one
    response: 200 with [Content-Type: audio/wav] and bytes, or one of 400,
    405, 500 and 502 with no header set and a JSON object whose first member
    is [error], a string. *)
Theorem always_answers (req : request) :
  fst (handler E env net req initial) = inl tt /\
  let r := res (run E env net req) in
  (statusCode r = 200%Z /\ headers r = [("Content-Type", "audio/wav")] /\
   exists audio, sent r = Some (Bytes audio)) \/
  ((statusCode r = 400%Z \/ statusCode r = 405%Z \/
    statusCode r = 500%Z \/ statusCode r = 502%Z) /\
   headers r = [] /\
   exists msg rest, sent r = Some (Json (Object (("error", String msg) :: rest)))).
Proof.
  split; [apply handler_outcome|].
  outcomes E env net req;
    first [ left; now eauto
          | right; split; [tauto|]; split; [reflexivity|];
            eexists; eexists; reflexivity ].
Qed.

(** X5. What the status says about the call: a 200 was preceded by one
    call, answered with a status in 200-299, and carries that answer's
    bytes; a 502 was preceded by one call answered with a status outside
    200-299 whose text could be read. *)
Theorem status_tells (req : request) :
  let w := run E env net req in
  (statusCode (res w) = 200%Z ->
     exists c r audio,
       calls w = [c] /\ net c = inl r /\ ok r = true /\
       arrayBuffer r = inl audio /\ sent (res w) = Some (Bytes audio)) /\
  (statusCode (res w) = 502%Z ->
     exists c r t,
       calls w = [c] /\ net c = inl r /\ ok r = false /\ Http.text r = inl t).
Proof.
  intros w. subst w.
  outcomes E env net req; split; intros Hstatus; try discriminate Hstatus;
    eexists; eexists; eexists; eauto.
Qed.


(** X7. Every call is a POST, and the API key leaves only in the call to
    the TTS endpoint: a call that carries an [Authorization] header is the
    TTS call, and the header is [Bearer] and the key; the calls to the
    cloning server carry no such header. *)
Theorem key_confined (req : request) (c : call) :
  In c (calls (run E env net req)) ->
  call_method c = "POST" /\
  (forall v, In ("Authorization", v) (call_headers c) ->
     v = "Bearer " ++ GEMINI_API_KEY env /\ exists text, c = tts_call env text).
Proof.
  intros Hin.
  destruct (calls_origin E env net req c Hin) as [_ [? ? -> | ? ? ? ? ? -> | ? ? ? ? ? ? ->]];
    (split; [reflexivity|]); intros v Hv; simpl in Hv;
    repeat match goal with
           | H : _ \/ _ |- _ => destruct H
           | H : False |- _ => destruct H
           end;
    try discriminate.
  match goal with H : _ = _ |- _ => injection H as <- end.
  split; [reflexivity|]. eexists. reflexivity.
Qed.

(** X8. The handler sees the body only through the concatenation of the
    chunks ([readRawRequest]): two requests with the same method, the same
    [Content-Type] and the same bytes end in the same world, however the
    bytes were cut into chunks. *)
Theorem chunking_irrelevant (req req' : request) :
  method req = method req' ->
  content_type req = content_type req' ->
  concat (chunks req) = concat (chunks req') ->
  run E env net req = run E env net req'.
Proof.
  intros Hm Hc Hb.
  assert (Hread : readRawRequest req = readRawRequest req').
  { unfold readRawRequest, read_stream, bind, update, ret, Buffer_concat.
    cbv beta iota. now rewrite Hb. }
  unfold run, handler. now rewrite Hm, Hc, Hread.
Qed.


(** X10. The handler reads the environment through the three constants of
    lines 14-16 only, so a variable set to the empty string has the effect
    of one that is not set: two environments with the same three constants
    lead to the same world. *)
Theorem blank_is_unset (env' : environment) (req : request) :
  RVC_SERVER_URL env = RVC_SERVER_URL env' ->
  GEMINI_API_KEY env = GEMINI_API_KEY env' ->
  GEMINI_TTS_URL env = GEMINI_TTS_URL env' ->
  run E env net req = run E env' net req.
Proof.
  intros Hrvc Hkey Hurl.
  unfold run, handler, synthesize_url. now rewrite Hrvc, Hkey, Hurl.
Qed.

(** X11. The defaults of line 40 stand in for members that are missing, not
    for members that are [null]: a body with a truthy [text] and no [mode]
    is sent to the cloning server when there is one, with [language] ["en"]
    when the body has no [language]; a body whose [mode] is [null] goes to
    the TTS endpoint. *)
Theorem missing_members_default (req : request) (members : list (jsstring * value))
                                (text : value) :
  method req = "POST" ->
  is_json req = true ->
  json_value (bodyText req) = Some (Object members) ->
  lookup "text" members = Some text ->
  truthy text = true ->
  let w := run E env net req in
  (lookup "mode" members = None -> lookup "language" members = None ->
   nonempty (RVC_SERVER_URL env) = true ->
     calls w =
       [{| url := replace_trailing_slash (RVC_SERVER_URL env) ++ "/synthesize";
           call_method := "POST";
           call_headers := [("Content-Type", "application/json")];
           call_body :=
             JSON_stringify
               (Object [("text", text); ("language", String "en")]) |}]) /\
  (lookup "mode" members = Some Null ->
   nonempty (GEMINI_API_KEY env) = true ->
     calls w = [tts_call env text]).
Proof.
  intros Hpost Hjson Hbody Hlook Htext w.
  assert (Ht : text_of (Object members) = text).
  { unfold text_of, get. now rewrite Hlook. }
  split.
  - intros Hmode Hlang Hrvc.
    unfold w. rewrite (calls_synth E env net req (Object members));
      try assumption.
    + unfold synth_call, synthesize_url, language_of, get.
      now rewrite Ht, Hlang.
    + now rewrite Ht.
    + unfold cloned, mode_of, get. now rewrite Hmode, Hrvc.
  - intros Hmode Hkey.
    unfold w. rewrite (calls_tts E env net req (Object members));
      try assumption.
    + now rewrite Ht.
    + now rewrite Ht.
    + unfold cloned, mode_of, get. now rewrite Hmode.
Qed.

(** X12. The test of line 37 looks for [application/json] anywhere in the
    lowered header, so a parameter (a charset) and any surrounding text do
    not matter: such a request is read as JSON, and with an empty body it is
    answered 400 for its missing [text]. *)
Theorem json_anywhere (req : request) (h a b : jsstring) :
  content_type req = Some h ->
  toLowerCase h = a ++ "application/json" ++ b ->
  is_json req = true /\
  (method req = "POST" -> rawBuffer req = [] ->
     run E env net req =
       {| consumed := true; calls := []; console := [];
          res := error_response 400
                   (error_body "Missing text field in JSON body") |}).
Proof.
  intros Hh Hlow.
  assert (Hjson : is_json req = true).
  { unfold is_json, contentType. rewrite Hh. simpl or_default.
    unfold or_string. destruct h as [|c h].
    - destruct a; discriminate.
    - simpl nonempty. cbv iota. rewrite Hlow. apply includes_app. }
  split; [exact Hjson|].
  intros Hpost Hraw.
  apply run_falsy_text with (Object []); try assumption.
  - now apply empty_body.
  - discriminate.
  - reflexivity.
Qed.

(** X13. A JSON request never has its raw body or its own [Content-Type]
    forwarded: every call it leads to has a body made by [JSON.stringify]
    and the header [Content-Type: application/json]. *)
Theorem json_never_forwarded (req : request) (c : call) :
  is_json req = true ->
  In c (calls (run E env net req)) ->
  (exists v, call_body c = JSON_stringify v) /\
  In ("Content-Type", "application/json") (call_headers c) /\
  (forall v, In ("Content-Type", v) (call_headers c) -> v = "application/json").
Proof.
  intros Hjson Hin.
  destruct (calls_origin E env net req c Hin)
    as [_ [Hraw ? -> | ? ? ? ? ? -> | ? ? ? ? ? ? ->]];
    [congruence| |];
    (split; [eexists; reflexivity|]); (split; [now left|]);
    intros v Hv; simpl in Hv;
    repeat match goal with
           | H : _ \/ _ |- _ => destruct H
           | H : False |- _ => destruct H
           end;
    try discriminate;
    match goal with H : _ = _ |- _ => now injection H as <- end.
Qed.


(** X15. What is logged: at most one line; nothing for a 200, a 400 or a
    405; and an answer [{error: "Internal server error", details}] comes
    with the line that holds the error whose string form, cut to 300 code
    units, is [details]. *)
Theorem logging (req : request) :
  let w := run E env net req in
  length (console w) <= 1 /\
  (statusCode (res w) = 200%Z \/ statusCode (res w) = 400%Z \/
   statusCode (res w) = 405%Z -> console w = []) /\
  (forall d,
     sent (res w) = Some (Json (error_details "Internal server error" d)) ->
     exists err,
       console w = [[LogString "voice.js error"; LogError err]] /\
       d = substring 0 300 (String_of_error err)).
Proof.
  intros w. subst w.
  outcomes E env net req;
    (split; [simpl; lia|]);
    (split; [intros [Hs|[Hs|Hs]]; (reflexivity || discriminate Hs)|]);
    intros d Hd; try discriminate Hd;
    injection Hd as <-; eexists; split; reflexivity.
Qed.

(** X16. No answer carries more than 300 code units of detail, whatever
    the upstream sent and whatever was thrown. *)
Theorem details_bounded (req : request) (msg d : jsstring) :
  sent (res (run E env net req)) = Some (Json (error_details msg d)) ->
  length d <= 300.
Proof.
  intros Hd.
  outcomes E env net req; try discriminate Hd;
    injection Hd as _ <-;
    match goal with
    | |- length (substring 0 ?n ?t) <= _ =>
        pose proof (substring_length n t); lia
    end.
Qed.

End Extras.

(** ** The further properties on sample requests *)

Lemma audio_relayed_witness :
  run V8 both (answers 200 "RIFF") hi_cloned =
    {| consumed := true;
       calls := [synth_call both (String "hi") (String "en")];
       console := [];
       res := {| statusCode := 200;
                 headers := [("Content-Type", "audio/wav")];
                 sent := Some (Bytes (ascii "RIFF")) |} |}.
Proof.
  apply (audio_relayed V8 both (answers 200 "RIFF") hi_cloned
           (synth_call both (String "hi") (String "en"))
           {| status := 200; Http.text := inl "RIFF";
              arrayBuffer := inl (ascii "RIFF") |});
    try reflexivity.
  left. reflexivity.
Defined.

Lemma fetch_rejected_witness :
  run V8 rvc_only down recording =
    {| consumed := true; calls := [audio_call rvc_only recording];
       console := [[LogString "voice.js error"; LogError (TypeError "fetch failed")]];
       res := error_response 500
                (error_details "Internal server error" "TypeError: fetch failed") |}.
Proof.
  apply (fetch_rejected V8 rvc_only down recording
           (audio_call rvc_only recording) (TypeError "fetch failed"));
    try reflexivity.
  left. reflexivity.
Defined.

Lemma body_unreadable_witness :
  res (run V8 both (cut_off 200) hi_normal) =
    error_response 500
      (error_details "Internal server error" "TypeError: terminated") /\
  res (run V8 both (cut_off 503) hi_normal) =
    error_response 500
      (error_details "Internal server error" "TypeError: terminated").
Proof.
  split.
  - refine (f_equal res
              (body_unreadable V8 both (cut_off 200) hi_normal
                 (tts_call both (String "hi"))
                 {| status := 200; Http.text := inr (TypeError "terminated");
                    arrayBuffer := inr (TypeError "terminated") |}
                 (TypeError "terminated") (or_introl eq_refl) eq_refl
                 (or_introl (conj eq_refl eq_refl)))).
  - refine (f_equal res
              (body_unreadable V8 both (cut_off 503) hi_normal
                 (tts_call both (String "hi"))
                 {| status := 503; Http.text := inr (TypeError "terminated");
                    arrayBuffer := inr (TypeError "terminated") |}
                 (TypeError "terminated") (or_introl eq_refl) eq_refl
                 (or_intror (conj eq_refl eq_refl)))).
Defined.


Lemma key_confined_witness :
  call_method (tts_call both (String "hi")) = "POST" /\
  (forall v, In ("Authorization", v) (call_headers (tts_call both (String "hi"))) ->
     v = "Bearer k3y" /\ exists text, tts_call both (String "hi") = tts_call both text).
Proof.
  apply (key_confined V8 both (answers 200 "RIFF") hi_normal
           (tts_call both (String "hi"))).
  left. reflexivity.
Defined.

Lemma chunking_irrelevant_witness :
  run V8 both (answers 200 "RIFF") hi_normal_pieces =
  run V8 both (answers 200 "RIFF") hi_normal_whole.
Proof.
  apply (chunking_irrelevant V8 both (answers 200 "RIFF")
           hi_normal_pieces hi_normal_whole);
    reflexivity.
Defined.


Lemma blank_is_unset_witness :
  run V8 tts_only_blank (answers 200 "RIFF") hi_cloned =
  run V8 tts_only (answers 200 "RIFF") hi_cloned.
Proof.
  apply (blank_is_unset V8 tts_only_blank (answers 200 "RIFF") tts_only hi_cloned);
    reflexivity.
Defined.

Lemma missing_members_default_witness :
  calls (run V8 rvc_only (answers 200 "RIFF") hi_only) =
    [{| url := "https://gpu.example.com/synthesize";
        call_method := "POST";
        call_headers := [("Content-Type", "application/json")];
        call_body :=
          JSON_stringify
            (Object [("text", String "hi"); ("language", String "en")]) |}] /\
  calls (run V8 both (answers 200 "RIFF") hi_null_mode) =
    [tts_call both (String "hi")].
Proof.
  split.
  - refine (proj1 (missing_members_default V8 rvc_only (answers 200 "RIFF")
                     hi_only [("text", String "hi")] (String "hi")
                     _ _ _ _ _) _ _ _);
      reflexivity.
  - refine (proj2 (missing_members_default V8 both (answers 200 "RIFF")
                     hi_null_mode [("text", String "hi"); ("mode", Null)]
                     (String "hi") _ _ _ _ _) _ _);
      reflexivity.
Defined.

Lemma json_anywhere_witness :
  is_json odd_type = true /\
  run V8 both down odd_type =
    rejected (error_response 400 (error_body "Missing text field in JSON body")).
Proof.
  destruct (json_anywhere V8 both down odd_type
              "text/plain; was=Application/JSON" "text/plain; was=" ""
              eq_refl eq_refl) as [Hjson Hrun].
  split; [exact Hjson|]. apply Hrun; reflexivity.
Defined.

Lemma json_never_forwarded_witness :
  (exists v, call_body (tts_call both (String "hi")) = JSON_stringify v) /\
  In ("Content-Type", "application/json")
     (call_headers (tts_call both (String "hi"))) /\
  (forall v, In ("Content-Type", v) (call_headers (tts_call both (String "hi"))) ->
     v = "application/json").
Proof.
  apply (json_never_forwarded V8 both (answers 200 "RIFF") hi_normal_de
           (tts_call both (String "hi")));
    [reflexivity|].
  left. reflexivity.
Defined.

Lemma details_bounded_witness :
  length (JS.String_of_error (SyntaxError "Unexpected token")) <= 300.
Proof.
  apply (details_bounded V8 both down bad_json "Internal server error").
  reflexivity.
Defined.
